(** * The editing core of [editor.py]

    A shallow embedding of the main loop of [editor.py] (the function
    [editor] and its helpers [word_wrap] and [save_undo]) together with the
    Python built-ins it relies on, and the properties of the buffer, the
    cursor, the undo and redo history, soft wrapping, replace and file
    persistence.

    Python values are modelled as follows: [int] is [Z]; a [str] is the list
    of its Unicode code points ([N]); a [list] is a [list] (the history
    stacks keep Python's order, the top of a stack is the last element);
    an uncaught exception is [None] in the option monad. What the
    environment answers is an input: the size of the terminal and the keys,
    the texts that the prompts return, and whether the calls that can fail
    (drawing the status line, file operations) raise. *)

From Stdlib Require Import ZArith Lia Ascii String.
From stdpp Require Import base option list gmap strings.

Local Open Scope Z_scope.

(** ** Python strings and built-ins *)

Abbreviation char := N (only parsing).
Abbreviation str := (list N) (only parsing).

(** A literal: the code points of an ASCII string. *)
Definition py (s : string) : str := N_of_ascii <$> list_ascii_of_string s.

Module Py.

Section Sequences.
Context {A : Type}.

Definition len (l : list A) : Z := Z.of_nat (length l).

(** [l[i]]: a negative index counts from the end, an index out of range
    raises IndexError. *)
Definition norm_index (l : list A) (i : Z) : option nat :=
  let i' := if i <? 0 then i + len l else i in
  if (0 <=? i') && (i' <? len l) then Some (Z.to_nat i') else None.

Definition getitem (l : list A) (i : Z) : option A :=
  n ← norm_index l i; l !! n.

(** [l[i] = x] *)
Definition setitem (l : list A) (i : Z) (x : A) : option (list A) :=
  n ← norm_index l i; Some (<[n:=x]> l).

(** [l.pop(i)] *)
Definition pop (l : list A) (i : Z) : option (A * list A) :=
  n ← norm_index l i; x ← l !! n; Some (x, delete n l).

(** A slice bound: negative counts from the end, then clamped to
    [0 .. len l]. *)
Definition clamp (l : list A) (i : Z) : nat :=
  let i' := if i <? 0 then i + len l else i in
  Z.to_nat (Z.max 0 (Z.min i' (len l))).

(** [l[lo:hi]], [l[lo:]] and [l[:hi]] *)
Definition slice (l : list A) (lo hi : Z) : list A :=
  take (clamp l hi - clamp l lo)%nat (drop (clamp l lo) l).
Definition slice_from (l : list A) (lo : Z) : list A := drop (clamp l lo) l.
Definition slice_to (l : list A) (hi : Z) : list A := take (clamp l hi) l.

(** [l.insert(i, x)]: never raises, the position is clamped. *)
Definition insert (l : list A) (i : Z) (x : A) : list A :=
  take (clamp l i) l ++ x :: drop (clamp l i) l.
End Sequences.

(** [range(start, stop, step)]; a zero step raises ValueError. The fuel is
    an upper bound on the number of elements. *)
Fixpoint range_up (fuel : nat) (i stop step : Z) : list Z :=
  match fuel with
  | O => []
  | S fuel' => if i <? stop then i :: range_up fuel' (i + step) stop step else []
  end.

Fixpoint range_down (fuel : nat) (i stop step : Z) : list Z :=
  match fuel with
  | O => []
  | S fuel' => if stop <? i then i :: range_down fuel' (i + step) stop step else []
  end.

Definition range (start stop step : Z) : option (list Z) :=
  if step =? 0 then None
  else if 0 <? step then Some (range_up (Z.to_nat (stop - start)) start stop step)
  else Some (range_down (Z.to_nat (start - stop)) start stop step).

(** [s.startswith(p)] *)
Fixpoint startswith (p s : str) : bool :=
  match p, s with
  | [], _ => true
  | _ :: _, [] => false
  | a :: p', b :: s' => (a =? b)%N && startswith p' s'
  end.

(** [sub in s] *)
Fixpoint contains (sub s : str) : bool :=
  startswith sub s ||
  match s with
  | [] => false
  | _ :: s' => contains sub s'
  end.

(** [s.find(sub)]: the lowest index of an occurrence, or -1. *)
Fixpoint find_from (i : Z) (sub s : str) : Z :=
  if startswith sub s then i
  else match s with
       | [] => -1
       | _ :: s' => find_from (i + 1) sub s'
       end.

Definition find (s sub : str) : Z := find_from 0 sub s.

(** [s.replace(old, new)]: the occurrences of [old] are taken from left to
    right without overlap; an empty [old] matches before every character
    and at the end. *)
Fixpoint replace_fuel (fuel : nat) (s old new : str) : str :=
  match fuel with
  | O => s
  | S fuel' =>
      let skip := match s with
                  | [] => []
                  | c :: s' => c :: replace_fuel fuel' s' old new
                  end in
      if startswith old s then
        match old with
        | [] => new ++ skip
        | _ :: _ => new ++ replace_fuel fuel' (drop (length old) s) old new
        end
      else skip
  end.

Definition replace (s old new : str) : str :=
  replace_fuel (S (length s)) s old new.

(** [sep.join(parts)] *)
Fixpoint join (sep : str) (parts : list str) : str :=
  match parts with
  | [] => []
  | p :: rest =>
      match rest with
      | [] => p
      | _ :: _ => p ++ sep ++ join sep rest
      end
  end.

(** The line boundaries of [str.splitlines]: LF, VT, FF, CR, FS, GS, RS,
    NEL, LINE SEPARATOR and PARAGRAPH SEPARATOR (CR LF counts once). *)
Definition LF : char := 10%N.
Definition CR : char := 13%N.

Definition is_linebreak (c : char) : bool :=
  bool_decide (c ∈ [10; 11; 12; 13; 28; 29; 30; 133; 8232; 8233]%N).

(** [s.splitlines()]: a boundary ends the current line; no empty last line
    is produced when the text ends with a boundary. *)
Fixpoint splitlines (s : str) : list str :=
  match s with
  | [] => []
  | c :: rest =>
      if is_linebreak c then
        [] :: (if (c =? CR)%N
               then match rest with
                    | d :: rest' => if (d =? LF)%N then splitlines rest'
                                    else splitlines rest
                    | [] => splitlines rest
                    end
               else splitlines rest)
      else match splitlines rest with
           | [] => [[c]]
           | l :: ls => (c :: l) :: ls
           end
  end.

End Py.

(** ** Soft wrapping *)

(** [[line[i:i+width] for i in range(0, len(line), width)]] *)
Definition chunks (line : str) (width : Z) : option (list str) :=
  starts ← Py.range 0 (Py.len line) width;
  Some (map (λ i, Py.slice line i (i + width)) starts).

Definition word_wrap (line : str) (width : Z) : option (list str) :=
  if width <? Py.len line then chunks line width else Some [line].

(** The display segments: every line wrapped, each segment tagged with the
    index of the line it comes from. *)
Fixpoint wrap_from (original_idx : Z) (lines : list str) (width : Z)
  : option (list (Z * str)) :=
  match lines with
  | [] => Some []
  | line :: rest =>
      wrapped ← word_wrap line width;
      segs ← wrap_from (original_idx + 1) rest width;
      Some (map (λ wline, (original_idx, wline)) wrapped ++ segs)
  end.

Definition wrap (lines : list str) (width : Z) : option (list (Z * str)) :=
  wrap_from 0 lines width.

(** ** The editor state *)

Definition LINE_NUMBER_WIDTH : Z := 5.
Definition RECENT_FILES : str := py ".editor_recent".

(** The status line; the formatted messages keep their arguments. *)
Inductive status : Type :=
| Welcome
| NewFile (name : str)
| UnsavedChanges
| Wrote (name : str)
| ErrorSaving
| SaveCancelled
| HelpText
| Found (term : str)
| NotFound (term : str)
| Replaced (count : Z)
| Jumped (line : Z)
| InvalidLineNumber
| InvalidInput
| LineCut
| LinePasted
| UndoDone
| RedoDone.

(** The local variables of [editor], and the files on disk (path to
    content). [filetype] only selects the highlighting and is left out. *)
Record editor : Type := Editor {
  filename : option str;
  lines : list str;
  cursor_y : Z;
  cursor_x : Z;
  screen_y_offset : Z;
  status_msg : status;
  modified : bool;
  clipboard_line : str;
  undo_stack : list (list str);
  redo_stack : list (list str);
  files : gmap (list N) (list N)
}.

Definition set_filename (s : editor) (name : option str) : editor :=
  Editor name (lines s) (cursor_y s) (cursor_x s) (screen_y_offset s)
    (status_msg s) (modified s) (clipboard_line s) (undo_stack s)
    (redo_stack s) (files s).

Definition set_lines (s : editor) (ls : list str) : editor :=
  Editor (filename s) ls (cursor_y s) (cursor_x s) (screen_y_offset s)
    (status_msg s) (modified s) (clipboard_line s) (undo_stack s)
    (redo_stack s) (files s).

Definition set_cursor (s : editor) (y x : Z) : editor :=
  Editor (filename s) (lines s) y x (screen_y_offset s)
    (status_msg s) (modified s) (clipboard_line s) (undo_stack s)
    (redo_stack s) (files s).

Definition set_offset (s : editor) (off : Z) : editor :=
  Editor (filename s) (lines s) (cursor_y s) (cursor_x s) off
    (status_msg s) (modified s) (clipboard_line s) (undo_stack s)
    (redo_stack s) (files s).

Definition set_status (s : editor) (m : status) : editor :=
  Editor (filename s) (lines s) (cursor_y s) (cursor_x s) (screen_y_offset s)
    m (modified s) (clipboard_line s) (undo_stack s)
    (redo_stack s) (files s).

Definition set_modified (s : editor) (b : bool) : editor :=
  Editor (filename s) (lines s) (cursor_y s) (cursor_x s) (screen_y_offset s)
    (status_msg s) b (clipboard_line s) (undo_stack s)
    (redo_stack s) (files s).

Definition set_clipboard (s : editor) (c : str) : editor :=
  Editor (filename s) (lines s) (cursor_y s) (cursor_x s) (screen_y_offset s)
    (status_msg s) (modified s) c (undo_stack s)
    (redo_stack s) (files s).

Definition set_history (s : editor) (undo redo : list (list str)) : editor :=
  Editor (filename s) (lines s) (cursor_y s) (cursor_x s) (screen_y_offset s)
    (status_msg s) (modified s) (clipboard_line s) undo redo (files s).

Definition set_files (s : editor) (fs : gmap (list N) (list N)) : editor :=
  Editor (filename s) (lines s) (cursor_y s) (cursor_x s) (screen_y_offset s)
    (status_msg s) (modified s) (clipboard_line s) (undo_stack s)
    (redo_stack s) fs.

(** [if filename:] is false for [None] and for the empty string. *)
Definition truthy (name : option str) : option str :=
  match name with
  | Some (c :: rest) => Some (c :: rest)
  | _ => None
  end.

(** ** History *)

(** [save_undo]: push a copy of the buffer, drop the oldest snapshot when
    more than 100 are kept, clear the redo stack. *)
Definition save_undo (s : editor) : editor :=
  let pushed := undo_stack s ++ [lines s] in
  let kept := if 100 <? Py.len pushed then drop 1 pushed else pushed in
  set_history s kept [].

(** ** Files *)

(** Faults of the environment during one save: whether [os.rename], the
    write to the file (lines 279 and 280) and the append to the recent-files
    list raise. A write that raises leaves the files as they are when [open]
    raises ([partial_write] is [None]); once [open] has created or truncated
    the file, it leaves there what was written before the exception, the
    first [n] characters of the text ([Some n]). *)
Record io_faults : Type := Faults {
  rename_fails : bool;
  write_fails : bool;
  partial_write : option nat;
  recent_fails : bool
}.

Definition no_faults : io_faults := Faults false false None false.

(** [save_recent_file]: append the name and a newline to [RECENT_FILES];
    any exception is swallowed. *)
Definition save_recent_file (fails : bool) (name : str)
    (fs : gmap (list N) (list N)) : gmap (list N) (list N) :=
  if fails then fs
  else <[RECENT_FILES := default [] (fs !! RECENT_FILES) ++ name ++ [Py.LF]]> fs.

(** What [open(filename, 'r').read()] returns for a file content: the
    default universal-newlines mode turns CR LF and CR into LF. *)
Fixpoint read_text (content : str) : str :=
  match content with
  | [] => []
  | c :: rest =>
      if (c =? Py.CR)%N then
        Py.LF :: match rest with
                 | d :: rest' => if (d =? Py.LF)%N then read_text rest'
                                 else read_text rest
                 | [] => []
                 end
      else c :: read_text rest
  end.

(** The buffer loaded from a file content (lines 130 to 133). *)
Definition load_lines (content : str) : list str :=
  match Py.splitlines (read_text content) with
  | [] => [[]]
  | l :: ls => l :: ls
  end.

(** What a save writes: ['\n'.join(lines)]. *)
Definition serialize (ls : list str) : str := Py.join [Py.LF] ls.

(** The state before the first frame (lines 112 to 136). *)
Definition start (name : option str) (recent_fails : bool)
    (fs : gmap (list N) (list N)) : editor :=
  let s := Editor name [[]] 0 0 0 Welcome false [] [] [] fs in
  match truthy name with
  | None => s
  | Some path =>
      match fs !! path with
      | Some content =>
          set_files (set_lines s (load_lines content))
            (save_recent_file recent_fails path fs)
      | None => set_status s (NewFile path)
      end
  end.

(** ** One frame: layout, viewport and cursor placement *)

Definition menu_text : str :=
  py "^G Help  ^O Write Out  ^W Where Is  ^\ Replace  ^_ GoTo  ^K Cut  ^U Paste  ^Z Undo  ^Y Redo  ^X Exit".

(** What the terminal answers in one frame: its size ([getmaxyx], rows and
    columns) and whether the drawing raises. The title, the text area, the
    menu rows and the cursor move are drawn inside [try] blocks; the status
    line is not: [draw_status] (line 59) calls [addstr] bare, and its
    curses.error ends the program. So does the ValueError of [draw_menu]
    (line 46), whose [range] has the step [curses.COLS - 1], zero when
    [curses.COLS] is 1. Both depend on the terminal and on [curses.COLS],
    which are not part of the state: [draw_raises] tells whether one of
    them is raised. *)
Record terminal : Type := Terminal {
  getmaxyx : Z * Z;
  draw_raises : bool
}.

(** What a frame computes for the handlers. *)
Record frame : Type := Frame {
  text_height : Z;
  text_width : Z;
  wrapped_lines : list (Z * str);
  visible_line_idx : Z
}.

(** The scan of lines 186 to 192: returns [visible_line_idx] and the value
    of the variable [cursor_x] when the loop ends. *)
Fixpoint locate_cursor (i : Z) (segs : list (Z * str)) (cy cx : Z) : Z * Z :=
  match segs with
  | [] => (0, cx)
  | (orig_idx, wline) :: rest =>
      if orig_idx =? cy then
        if cx <=? Py.len wline then (i, cx)
        else locate_cursor (i + 1) rest cy (cx - Py.len wline)
      else locate_cursor (i + 1) rest cy cx
  end.

(** Lines 139 to 194: the layout (a [range] with step 0 raises ValueError
    when the width is 1), the viewport, the display segments ([word_wrap]
    raises ValueError for a non-empty line when the text width is 0), the
    drawing of the status line and of the menu (lines 183 and 184), and the
    scan that places the cursor. The guarded drawing calls change nothing in
    the state and are left out. *)
Definition render (tty : terminal) (s : editor) : option (frame * editor) :=
  let '(height, width) := getmaxyx tty in
  menu_chunks ← chunks menu_text (width - 1);
  let menu_height := Py.len menu_chunks in
  let th := height - 4 - menu_height in
  let tw := width - LINE_NUMBER_WIDTH in
  let off :=
    if cursor_y s <? screen_y_offset s then cursor_y s
    else if screen_y_offset s + th <=? cursor_y s then cursor_y s - th + 1
    else screen_y_offset s in
  segs ← wrap (lines s) tw;
  if draw_raises tty then None
  else
    let '(vis, cx) := locate_cursor 0 segs (cursor_y s) (cursor_x s) in
    Some (Frame th tw segs vis, set_cursor (set_offset s off) (cursor_y s) cx).

(** ** Commands *)

(** What [getch] returns, with the answers the terminal gives to the
    command: the mouse event of [getmouse] ([None] when it raises); for the
    exit of a modified buffer, whether the key read after the warning is
    Ctrl-X again ([None] when drawing the warning raises, lines 262 and 263,
    the same bare calls as in a frame); the texts that the prompts returned;
    the result of [int] on the goto answer ([None] for the ValueError that
    the goto handler catches). A prompt that ends the program instead of
    returning is a key of its own: [prompt] (lines 61 to 66) calls [addstr]
    and decodes the answer without a [try]. *)
Inductive key : Type :=
| KeyMouse (event : option (Z * Z))       (* KEY_MOUSE, (mx, my) *)
| KeyUp
| KeyDown
| KeyLeft
| KeyRight
| KeyBackspace                            (* KEY_BACKSPACE, 127, 8 *)
| KeyEnter                                (* 10 *)
| KeyTab                                  (* 9 *)
| KeyExit (confirm : option bool)         (* 24, Ctrl-X *)
| KeySave (answer : str) (io : io_faults) (* 15, Ctrl-O *)
| KeyHelp                                 (* 7, Ctrl-G *)
| KeyWhereIs (search_term : str)          (* 23, Ctrl-W *)
| KeyReplace (search_term replace_term : str) (* 28 *)
| KeyGoto (number : option Z)             (* 31 *)
| KeyCut                                  (* 11, Ctrl-K *)
| KeyPaste                                (* 21, Ctrl-U *)
| KeyUndo                                 (* 26, Ctrl-Z *)
| KeyRedo                                 (* 25, Ctrl-Y *)
| KeyPromptError                          (* 15, 23, 28, 31: prompt raises *)
| KeyOther (code : Z).                    (* any other key code *)

Inductive outcome : Type :=
| Next (s : editor)     (* the loop goes on *)
| Quit (s : editor)     (* [break] *)
| Raise.                (* an uncaught exception ends the program *)

Definition continue (r : option editor) : outcome :=
  match r with
  | Some s => Next s
  | None => Raise
  end.

(** Lines 204 to 212; the bare [except] keeps what was assigned before the
    exception. *)
Definition on_mouse (f : frame) (event : option (Z * Z)) (s : editor) : editor :=
  match event with
  | None => s
  | Some (mx, my) =>
      if (1 <=? my) && (my <? text_height f + 1) then
        let y := screen_y_offset s + (my - 1) in
        let y := Z.max 0 (Z.min y (Py.len (lines s) - 1)) in
        match Py.getitem (lines s) y with
        | Some line =>
            set_cursor s y (Z.max 0 (Z.min (mx - LINE_NUMBER_WIDTH) (Py.len line)))
        | None => set_cursor s y (cursor_x s)
        end
      else s
  end.

(** The arrow keys, lines 214 to 231. *)
Definition on_up (s : editor) : option editor :=
  let y := Z.max 0 (cursor_y s - 1) in
  line ← Py.getitem (lines s) y;
  Some (set_cursor s y (Z.min (cursor_x s) (Py.len line))).

Definition on_down (s : editor) : option editor :=
  let y := Z.min (Py.len (lines s) - 1) (cursor_y s + 1) in
  line ← Py.getitem (lines s) y;
  Some (set_cursor s y (Z.min (cursor_x s) (Py.len line))).

Definition on_left (s : editor) : option editor :=
  if 0 <? cursor_x s then Some (set_cursor s (cursor_y s) (cursor_x s - 1))
  else if 0 <? cursor_y s then
    line ← Py.getitem (lines s) (cursor_y s - 1);
    Some (set_cursor s (cursor_y s - 1) (Py.len line))
  else Some s.

Definition on_right (s : editor) : option editor :=
  line ← Py.getitem (lines s) (cursor_y s);
  if cursor_x s <? Py.len line then
    Some (set_cursor s (cursor_y s) (cursor_x s + 1))
  else if cursor_y s <? Py.len (lines s) - 1 then
    Some (set_cursor s (cursor_y s + 1) 0)
  else Some s.

(** Lines 232 to 243. *)
Definition on_backspace (s0 : editor) : option editor :=
  let s := set_modified (save_undo s0) true in
  if 0 <? cursor_x s then
    line ← Py.getitem (lines s) (cursor_y s);
    ls ← Py.setitem (lines s) (cursor_y s)
           (Py.slice_to line (cursor_x s - 1) ++ Py.slice_from line (cursor_x s));
    Some (set_cursor (set_lines s ls) (cursor_y s) (cursor_x s - 1))
  else if 0 <? cursor_y s then
    prev ← Py.getitem (lines s) (cursor_y s - 1);
    line ← Py.getitem (lines s) (cursor_y s);
    ls ← Py.setitem (lines s) (cursor_y s - 1) (prev ++ line);
    popped ← Py.pop ls (cursor_y s);
    Some (set_cursor (set_lines s popped.2) (cursor_y s - 1) (Py.len prev))
  else Some s.

(** Lines 244 to 251. *)
Definition on_enter (s0 : editor) : option editor :=
  let s := set_modified (save_undo s0) true in
  line ← Py.getitem (lines s) (cursor_y s);
  ls ← Py.setitem (lines s) (cursor_y s) (Py.slice_to line (cursor_x s));
  Some (set_cursor
          (set_lines s (Py.insert ls (cursor_y s + 1) (Py.slice_from line (cursor_x s))))
          (cursor_y s + 1) 0).

(** Insertion of [text] at the cursor: Tab (four spaces, lines 252 to 257)
    and the printable keys (lines 348 to 352). *)
Definition insert_text (text : str) (s0 : editor) : option editor :=
  let s := set_modified (save_undo s0) true in
  line ← Py.getitem (lines s) (cursor_y s);
  ls ← Py.setitem (lines s) (cursor_y s)
         (Py.slice_to line (cursor_x s) ++ text ++ Py.slice_from line (cursor_x s));
  Some (set_cursor (set_lines s ls) (cursor_y s) (cursor_x s + Py.len text)).

Definition on_tab (s : editor) : option editor := insert_text (py "    ") s.

Definition on_char (code : Z) (s : editor) : option editor :=
  insert_text [Z.to_N code] s.

(** Lines 258 to 269. *)
Definition on_exit (confirm : option bool) (s : editor) : outcome :=
  if modified s then
    let s' := set_status s UnsavedChanges in
    match confirm with
    | None => Raise
    | Some true => Quit s'
    | Some false => Next s'
    end
  else Quit s.

(** The file operations of a save (lines 276 to 281), with the files they
    leave and whether they all succeeded. A failing [os.rename] leaves the
    files as they are; a failing write comes after the rename, and leaves at
    the path what [partial_write] says. *)
Definition write_out (io : io_faults) (path : str) (ls : list str)
    (fs : gmap (list N) (list N)) : gmap (list N) (list N) * bool :=
  if write_fails io then
    (match partial_write io with
     | None => fs
     | Some n => <[path := take n (serialize ls)]> fs
     end, false)
  else (save_recent_file (recent_fails io) path (<[path := serialize ls]> fs),
        true).

Definition save_files (io : io_faults) (path : str) (ls : list str)
    (fs : gmap (list N) (list N)) : gmap (list N) (list N) * bool :=
  match fs !! path with
  | Some old =>
      if rename_fails io then (fs, false)
      else write_out io path ls (<[path ++ py "~" := old]> (delete path fs))
  | None => write_out io path ls fs
  end.

(** Lines 270 to 287. *)
Definition on_save (answer : str) (io : io_faults) (s0 : editor) : editor :=
  let s :=
    match truthy (filename s0) with
    | Some _ => s0
    | None => set_filename s0 (Some answer)
    end in
  match truthy (filename s) with
  | Some path =>
      let saved := save_files io path (lines s) (files s) in
      if saved.2
      then set_modified (set_status (set_files s saved.1) (Wrote path)) false
      else set_status (set_files s saved.1) ErrorSaving
  | None => set_status s SaveCancelled
  end.

(** The loop of lines 293 to 299 over the rows still to visit. *)
Fixpoint search_rows (term : str) (ls : list str) (rows : list Z)
  : option (option (Z * Z)) :=
  match rows with
  | [] => Some None
  | idx :: rest =>
      line ← Py.getitem ls idx;
      if Py.contains term line then Some (Some (idx, Py.find line term))
      else search_rows term ls rest
  end.

(** Lines 290 to 301. *)
Definition on_where_is (term : str) (s : editor) : option editor :=
  rows ← Py.range (cursor_y s) (Py.len (lines s)) 1;
  hit ← search_rows term (lines s) rows;
  match hit with
  | Some (y, x) => Some (set_status (set_cursor s y x) (Found term))
  | None => Some (set_status s (NotFound term))
  end.

(** The loop of lines 307 to 310 over the rows still to visit. *)
Fixpoint replace_rows (old new : str) (rows : list Z) (ls : list str) (count : Z)
  : option (list str * Z) :=
  match rows with
  | [] => Some (ls, count)
  | i :: rest =>
      line ← Py.getitem ls i;
      if Py.contains old line then
        ls' ← Py.setitem ls i (Py.replace line old new);
        replace_rows old new rest ls' (count + 1)
      else replace_rows old new rest ls count
  end.

Definition replace_all (old new : str) (ls : list str) : option (list str * Z) :=
  rows ← Py.range 0 (Py.len ls) 1;
  replace_rows old new rows ls 0.

(** Lines 302 to 312. *)
Definition on_replace (old new : str) (s0 : editor) : option editor :=
  let s := save_undo s0 in
  r ← replace_all old new (lines s);
  Some (set_status (set_modified (set_lines s r.1) true) (Replaced r.2)).

(** Lines 313 to 323. *)
Definition on_goto (number : option Z) (s : editor) : option editor :=
  match number with
  | None => Some (set_status s InvalidInput)
  | Some n =>
      let goto_line := n - 1 in
      if (0 <=? goto_line) && (goto_line <? Py.len (lines s)) then
        line ← Py.getitem (lines s) goto_line;
        Some (set_status
                (set_cursor s goto_line (Z.min (cursor_x s) (Py.len line)))
                (Jumped (goto_line + 1)))
      else Some (set_status s InvalidLineNumber)
  end.

(** Lines 324 to 332. *)
Definition on_cut (s0 : editor) : option editor :=
  let s := save_undo s0 in
  line ← Py.getitem (lines s) (cursor_y s);
  popped ← Py.pop (lines s) (cursor_y s);
  let ls := popped.2 in
  let y := if Py.len ls <=? cursor_y s then Z.max 0 (Py.len ls - 1)
           else cursor_y s in
  Some (set_status
          (set_modified (set_cursor (set_lines (set_clipboard s line) ls) y 0) true)
          LineCut).

(** Lines 333 to 337. *)
Definition on_paste (s0 : editor) : editor :=
  let s := save_undo s0 in
  set_status
    (set_modified
       (set_lines s (Py.insert (lines s) (cursor_y s) (clipboard_line s))) true)
    LinePasted.

(** Lines 338 to 347: the top of a stack is its last element. *)
Definition on_undo (s : editor) : editor :=
  match last (undo_stack s) with
  | None => s
  | Some snapshot =>
      set_status
        (set_lines
           (set_history s (removelast (undo_stack s)) (redo_stack s ++ [lines s]))
           snapshot)
        UndoDone
  end.

Definition on_redo (s : editor) : editor :=
  match last (redo_stack s) with
  | None => s
  | Some snapshot =>
      set_status
        (set_lines
           (set_history s (undo_stack s ++ [lines s]) (removelast (redo_stack s)))
           snapshot)
        RedoDone
  end.

(** The dispatch of lines 204 to 352. *)
Definition handle_key (f : frame) (k : key) (s : editor) : outcome :=
  match k with
  | KeyMouse event => Next (on_mouse f event s)
  | KeyUp => continue (on_up s)
  | KeyDown => continue (on_down s)
  | KeyLeft => continue (on_left s)
  | KeyRight => continue (on_right s)
  | KeyBackspace => continue (on_backspace s)
  | KeyEnter => continue (on_enter s)
  | KeyTab => continue (on_tab s)
  | KeyExit confirm => on_exit confirm s
  | KeySave answer io => Next (on_save answer io s)
  | KeyHelp => Next (set_status s HelpText)
  | KeyWhereIs term => continue (on_where_is term s)
  | KeyReplace old new => continue (on_replace old new s)
  | KeyGoto number => continue (on_goto number s)
  | KeyCut => continue (on_cut s)
  | KeyPaste => Next (on_paste s)
  | KeyUndo => Next (on_undo s)
  | KeyRedo => Next (on_redo s)
  | KeyPromptError => Raise
  | KeyOther code =>
      if (32 <=? code) && (code <=? 126) then continue (on_char code s)
      else Next s
  end.

(** One iteration of the [while True] loop: the frame, then the key. *)
Definition step (tty : terminal) (k : key) (s : editor) : outcome :=
  match render tty s with
  | None => Raise
  | Some (f, s') => handle_key f k s'
  end.

(** The loop over what the terminal answers in the successive iterations. *)
Fixpoint run (inputs : list (terminal * key)) (s : editor) : outcome :=
  match inputs with
  | [] => Next s
  | (tty, k) :: rest =>
      match step tty k s with
      | Next s' => run rest s'
      | o => o
      end
  end.

(** The commands that call [save_undo]. *)
Definition mutating (k : key) : bool :=
  match k with
  | KeyBackspace | KeyEnter | KeyTab | KeyReplace _ _ | KeyCut | KeyPaste => true
  | KeyOther code => (32 <=? code) && (code <=? 126)
  | _ => false
  end.

(** The invariants of the data model. *)
Definition buffer_nonempty (s : editor) : Prop := lines s ≠ [].

Definition cursor_in_bounds (s : editor) : Prop :=
  0 <= cursor_y s < Py.len (lines s) ∧
  ∃ line, lines s !! Z.to_nat (cursor_y s) = Some line ∧
          0 <= cursor_x s <= Py.len line.

(** ** Specifications *)

(** [ceil (a / b)] for a positive [b]. *)
Definition ceil_div (a b : Z) : Z := (a + b - 1) / b.

(** All the occurrences of [old], taken from left to right without overlap,
    are replaced by [new]; [p] is the text before the leftmost occurrence,
    so that [old] occurs in [p ++ old] at the end only. *)
Inductive replaces_all (old new : str) : str → str → Prop :=
| replaces_done s :
    Py.contains old s = false → replaces_all old new s s
| replaces_next p rest rest' :
    Py.contains old (p ++ removelast old) = false →
    replaces_all old new rest rest' →
    replaces_all old new (p ++ old ++ rest) (p ++ new ++ rest').

(** What the replace command does to one line, and the lines it counts. *)
Definition replace_line (old new line : str) : str :=
  if Py.contains old line then Py.replace line old new else line.

Definition hits (old : str) (ls : list str) : list str :=
  filter (λ line, Py.contains old line = true) ls.

(** The only line boundary of the text is the newline character. *)
Definition only_newlines (content : str) : Prop :=
  Forall (λ c, Py.is_linebreak c = true → c = Py.LF) content.

(** A line boundary of a file content: a carriage return followed by a
    newline, taken together, or one boundary character alone. *)
Inductive boundary : str → Prop :=
| boundary_crlf : boundary [Py.CR; Py.LF]
| boundary_char c : Py.is_linebreak c = true → boundary [c].

(** [split_at_boundaries content ls]: the lines [ls] are the pieces of
    [content] between its line boundaries, from left to right. No piece
    holds a boundary character; a carriage return before a newline is never
    a boundary of its own; the text after the last boundary is a line if it
    is not empty. *)
Inductive split_at_boundaries : str → list str → Prop :=
| split_empty : split_at_boundaries [] []
| split_last line :
    line ≠ [] → Forall (λ c, Py.is_linebreak c = false) line →
    split_at_boundaries line [line]
| split_next line sep rest ls :
    Forall (λ c, Py.is_linebreak c = false) line →
    boundary sep →
    (sep = [Py.CR] → head rest ≠ Some Py.LF) →
    split_at_boundaries rest ls →
    split_at_boundaries (line ++ sep ++ rest) (line :: ls).


(** What a frame leaves alone: everything but [cursor_x] and the viewport. *)
Record same_document (s s' : editor) : Prop := SameDocument {
  same_filename : filename s' = filename s;
  same_lines : lines s' = lines s;
  same_cursor_y : cursor_y s' = cursor_y s;
  same_status : status_msg s' = status_msg s;
  same_modified : modified s' = modified s;
  same_clipboard : clipboard_line s' = clipboard_line s;
  same_undo : undo_stack s' = undo_stack s;
  same_redo : redo_stack s' = redo_stack s;
  same_files : files s' = files s
}.

(** The history and the flag after a command that called [save_undo] in
    the state [s]: the snapshot of the buffer of [s] is on top of the
    former undo stack (whose oldest entry may be gone), the redo stack is
    empty and the buffer is flagged as modified. *)
Definition snapshot_taken (s s' : editor) : Prop :=
  (∃ kept, undo_stack s' = kept ++ [lines s] ∧ kept `suffix_of` undo_stack s) ∧
  redo_stack s' = [] ∧ modified s' = true.

(** ** Sessions used as examples *)

(** A session started without a file name, on no files. *)
Definition blank : editor := start None false ∅.

(** A terminal of 24 rows and 80 columns, on which the status line is
    drawn. *)
Definition wide : terminal := Terminal (24, 80) false.

Definition state_of (o : outcome) : editor :=
  match o with
  | Next s => s
  | Quit s => s
  | Raise => blank
  end.


(** Two edits of the empty document: [a], then Enter. *)
Definition two_edits : list (terminal * key) :=
  [(wide, KeyOther 97); (wide, KeyEnter)].
Definition edited : editor := state_of (run two_edits blank).

(** The letter [a] typed 76 times: one more than the 75 columns of text of
    the terminal. *)
Definition typing : list (terminal * key) := replicate 76 (wide, KeyOther 97).
Definition typed : editor := state_of (run typing blank).

Definition fruit : editor :=
  Editor None [py "banana"; py "apple"] 0 0 0 Welcome false [] [] [] ∅.

(** The buffer [new] about to be saved over a file that holds [old]. *)
Definition notes : editor :=
  Editor (Some (py "notes.txt")) [py "new"] 0 0 0 Welcome true [] [] []
    {[ py "notes.txt" := py "old" ]}.
Definition notes_saved : editor :=
  state_of (step wide (KeySave [] no_faults) notes).

(** Case analysis along the binds and tests of a handler that returned. *)
Ltac returned H :=
  repeat match type of H with
         | continue ?r = Next ?s =>
             let H' := fresh "H" in
             assert (r = Some s) as H'
               by (destruct r; simpl in H; congruence);
             clear H; rename H' into H
         | (?m ≫= _) = Some _ =>
             let E := fresh "E" in
             destruct m eqn:E; simpl in H; [|discriminate H]
         | (if ?b then _ else _) = Some _ =>
             let E := fresh "E" in destruct b eqn:E
         | Some _ = Some _ => injection H as H
         end.

(** The empty document after a cut, after Enter, and after Enter undone. *)
Definition cut_blank : editor := state_of (step wide KeyCut blank).
Definition entered : editor := state_of (step wide KeyEnter blank).
Definition entered_undone : editor := state_of (step wide KeyUndo entered).

(** ** Definitions for the further properties *)

Definition arrow (k : key) : bool :=
  match k with
  | KeyUp | KeyDown | KeyLeft | KeyRight => true
  | _ => false
  end.

(** The cursor row exists. *)
Definition row_in_buffer (s : editor) : Prop :=
  0 <= cursor_y s < Py.len (lines s).

(** The keys that edit the text at the cursor. *)
Definition typing_key (k : key) : bool :=
  match k with
  | KeyBackspace | KeyEnter | KeyTab => true
  | KeyOther code => (32 <=? code) && (code <=? 126)
  | _ => false
  end.


(** The history holds at most 100 snapshots, both stacks together. *)
Definition history_bounded (s : editor) : Prop :=
  (length (undo_stack s) + length (redo_stack s) <= 100)%nat.

(** No document of the session is without lines: the buffer and every
    snapshot of the history. *)
Definition documents_nonempty (s : editor) : Prop :=
  lines s ≠ [] ∧
  Forall (λ b : list str, b ≠ []) (undo_stack s) ∧
  Forall (λ b : list str, b ≠ []) (redo_stack s).

(** What a command may do to the history. *)
Inductive history_step (k : key) (s s' : editor) : Prop :=
| history_kept :
    undo_stack s' = undo_stack s → redo_stack s' = redo_stack s →
    lines s' = lines s → history_step k s s'
| history_saved :
    mutating k = true →
    undo_stack s' = undo_stack (save_undo s) → redo_stack s' = [] →
    history_step k s s'
| history_undone under :
    undo_stack s = under ++ [lines s'] → undo_stack s' = under →
    redo_stack s' = redo_stack s ++ [lines s] → history_step k s s'
| history_redone under :
    redo_stack s = under ++ [lines s'] → redo_stack s' = under →
    undo_stack s' = undo_stack s ++ [lines s] → history_step k s s'.

(** A line of the buffer that holds no line boundary. *)
Definition plain_line (line : str) : Prop :=
  Forall (λ c, Py.is_linebreak c = false) line.

(** [c.isspace()]: the white space that [str.strip] removes. *)
Definition is_space (c : char) : bool :=
  bool_decide (c ∈ [9; 10; 11; 12; 13; 28; 29; 30; 31; 32; 133; 160; 5760;
                    8192; 8193; 8194; 8195; 8196; 8197; 8198; 8199; 8200;
                    8201; 8202; 8232; 8233; 8239; 8287; 12288]%N).

Fixpoint lstrip (s : str) : str :=
  match s with
  | [] => []
  | c :: s' => if is_space c then lstrip s' else s
  end.

Definition rstrip (s : str) : str := reverse (lstrip (reverse s)).

(** [s.strip()] *)
Definition strip (s : str) : str := rstrip (lstrip s).

(** The lines that iterating over a text file yields: each one up to and
    with its newline, the last one maybe without. *)
Fixpoint readlines (text : str) : list str :=
  match text with
  | [] => []
  | c :: rest =>
      if (c =? Py.LF)%N then [c] :: readlines rest
      else match readlines rest with
           | [] => [[c]]
           | l :: ls => (c :: l) :: ls
           end
  end.

(** [load_recent_files], lines 78 to 82: the stripped lines of the list that
    are not empty; no list, no names. *)
Definition load_recent_files (fs : gmap (list N) (list N)) : list str :=
  match fs !! RECENT_FILES with
  | Some content =>
      filter (λ name, name ≠ []) (strip <$> readlines (read_text content))
  | None => []
  end.

(** How [main] ends: with the editor on a file name or on none, or before
    the editor is started. *)
Inductive launch : Type :=
| Edit (name : option str)
| NoRecentFiles
| InvalidSelection.

(** [main], lines 354 to 376, for the arguments [sys.argv[1:]]; [choice] is
    the result of [int] on the answer to the prompt, [None] for ValueError. *)
Definition main (args : list str) (choice : option Z)
    (fs : gmap (list N) (list N)) : launch :=
  match args with
  | [] => Edit None
  | [arg] =>
      if decide (arg = py "--recent") then
        match load_recent_files fs with
        | [] => NoRecentFiles
        | recent =>
            match choice with
            | None => InvalidSelection
            | Some n =>
                match Py.getitem recent (n - 1) with
                | Some name => Edit (Some name)
                | None => InvalidSelection
                end
            end
        end
      else Edit (Some arg)
  | arg :: _ => Edit (Some arg)
  end.

(** The recent-files list after the names are saved in turn. *)
Definition register (names : list str) (fs : gmap (list N) (list N))
  : gmap (list N) (list N) :=
  foldl (λ fs name, save_recent_file false name fs) fs names.

(** A file name that the recent-files list gives back as it is: not empty,
    no white space at either end, no newline or carriage return. *)
Definition plain_name (name : str) : Prop :=
  (∃ c, head name = Some c ∧ is_space c = false) ∧
  (∃ c, last name = Some c ∧ is_space c = false) ∧
  Forall (λ c, c ≠ Py.LF ∧ c ≠ Py.CR) name.


(** The recent-files list after two sessions, on [a.txt] and on [b.py]. *)
Definition registry : gmap (list N) (list N) :=
  register [py "a.txt"; py "b.py"] ∅.


(** ** Slices, ranges and soft wrapping *)

Lemma ceil_div_spec (a b : Z) :
  0 < b → (ceil_div a b - 1) * b < a <= ceil_div a b * b.
Proof.
  intros Hb. unfold ceil_div.
  pose proof (Z.div_mod (a + b - 1) b ltac:(lia)) as Hdm.
  pose proof (Z.mod_pos_bound (a + b - 1) b Hb) as Hm.
  nia.
Qed.

Section Slices.
Context {A : Type}.
Implicit Types l : list A.

Lemma clamp_nonneg l i :
  0 <= i → Py.clamp l i = Nat.min (Z.to_nat i) (length l).
Proof.
  intros Hi. unfold Py.clamp, Py.len.
  destruct (Z.ltb_spec i 0); lia.
Qed.

Lemma slice_nonneg l lo hi :
  0 <= lo → lo <= hi →
  Py.slice l lo hi = take (Z.to_nat (hi - lo)) (drop (Z.to_nat lo) l).
Proof.
  intros Hlo Hhi. unfold Py.slice.
  rewrite !clamp_nonneg by lia.
  destruct (Nat.le_gt_cases (Z.to_nat lo) (length l)) as [Hle|Hgt].
  - rewrite (Nat.min_l (Z.to_nat lo)) by lia.
    destruct (Nat.le_gt_cases (Z.to_nat hi) (length l)).
    + rewrite Nat.min_l by lia. f_equal. lia.
    + rewrite Nat.min_r by lia.
      rewrite !take_ge; [done | | ]; rewrite length_drop; lia.
  - rewrite !drop_ge by lia. by rewrite !take_nil.
Qed.

Lemma slice_drop_step l i w :
  0 <= i → 0 < w →
  Py.slice l i (i + w) ++ drop (Z.to_nat (i + w)) l = drop (Z.to_nat i) l.
Proof.
  intros Hi Hw. rewrite slice_nonneg by lia.
  replace (Z.to_nat (i + w)) with (Z.to_nat i + Z.to_nat (i + w - i))%nat by lia.
  rewrite <- drop_drop. apply take_drop.
Qed.

Lemma getitem_nat l (i : nat) (x : A) :
  l !! i = Some x → Py.getitem l (Z.of_nat i) = Some x.
Proof.
  intros Hi. pose proof (lookup_lt_Some _ _ _ Hi) as Hlt.
  unfold Py.getitem, Py.norm_index, Py.len.
  destruct (Z.ltb_spec (Z.of_nat i) 0); [lia|].
  destruct (Z.leb_spec 0 (Z.of_nat i)); [|lia].
  destruct (Z.ltb_spec (Z.of_nat i) (Z.of_nat (length l))); [|lia].
  simpl. by rewrite Nat2Z.id.
Qed.

Lemma setitem_nat l (i : nat) (x : A) :
  (i < length l)%nat → Py.setitem l (Z.of_nat i) x = Some (<[i:=x]> l).
Proof.
  intros Hlt. unfold Py.setitem, Py.norm_index, Py.len.
  destruct (Z.ltb_spec (Z.of_nat i) 0); [lia|].
  destruct (Z.leb_spec 0 (Z.of_nat i)); [|lia].
  destruct (Z.ltb_spec (Z.of_nat i) (Z.of_nat (length l))); [|lia].
  simpl. by rewrite Nat2Z.id.
Qed.
End Slices.

Section Filter.
Context {A : Type} (P : A → Prop) `{!∀ x, Decision (P x)}.

Lemma filter_none (l : list A) : Forall (λ x, ¬ P x) l → filter P l = [].
Proof.
  induction 1 as [|x l Hx _ IH]; [done|].
  by rewrite filter_cons_False.
Qed.

Lemma filter_all (l : list A) : Forall P l → filter P l = l.
Proof.
  induction 1 as [|x l Hx _ IH]; [done|].
  rewrite filter_cons_True by done. by rewrite IH.
Qed.
End Filter.

Lemma range_total (start stop step : Z) :
  step ≠ 0 → is_Some (Py.range start stop step).
Proof.
  intros Hs. unfold Py.range. destruct (Z.eqb_spec step 0); [done|].
  by destruct (0 <? step).
Qed.

Lemma range_up_seq (m k : nat) :
  Py.range_up m (Z.of_nat k) (Z.of_nat (k + m)) 1 = Z.of_nat <$> seq k m.
Proof.
  revert k. induction m as [|m IH]; intros k; [done|]. simpl.
  destruct (Z.ltb_spec (Z.of_nat k) (Z.of_nat (k + S m))); [|lia].
  f_equal. replace (Z.of_nat k + 1) with (Z.of_nat (S k)) by lia.
  replace (k + S m)%nat with (S k + m)%nat by lia. apply IH.
Qed.

Lemma range_rows {A} (l : list A) :
  Py.range 0 (Py.len l) 1 = Some (Z.of_nat <$> seq 0 (length l)).
Proof.
  unfold Py.range, Py.len. simpl. rewrite Z.sub_0_r, Nat2Z.id.
  f_equal. apply (range_up_seq (length l) 0).
Qed.

Lemma range_up_concat (s : str) (w : Z) :
  0 < w → ∀ fuel i, 0 <= i → Py.len s - i <= Z.of_nat fuel →
  concat (map (λ j, Py.slice s j (j + w)) (Py.range_up fuel i (Py.len s) w))
  = drop (Z.to_nat i) s.
Proof.
  intros Hw. induction fuel as [|fuel IH]; intros i Hi Hfuel; simpl.
  - rewrite drop_ge; [done | unfold Py.len in *; lia].
  - destruct (Z.ltb_spec i (Py.len s)) as [Hlt|Hge]; simpl.
    + rewrite IH by lia. by apply slice_drop_step.
    + rewrite drop_ge; [done | unfold Py.len in *; lia].
Qed.

Lemma range_up_length (stop w : Z) :
  0 < w → ∀ fuel i, stop - i <= Z.of_nat fuel →
  Py.len (Py.range_up fuel i stop w) = Z.max 0 (ceil_div (stop - i) w).
Proof.
  intros Hw. unfold ceil_div. induction fuel as [|fuel IH]; intros i Hfuel; simpl.
  - assert ((stop - i + w - 1) / w <= 0); [|unfold Py.len; simpl; lia].
    apply Z.lt_succ_r, Z.div_lt_upper_bound; lia.
  - destruct (Z.ltb_spec i stop) as [Hlt|Hge].
    + unfold Py.len in *. simpl length. rewrite Nat2Z.inj_succ, IH by lia.
      replace (stop - i + w - 1) with ((stop - (i + w) + w - 1) + 1 * w) by lia.
      rewrite Z.div_add by lia.
      assert (0 <= (stop - (i + w) + w - 1) / w); [|lia].
      apply Z.div_pos; lia.
    + assert ((stop - i + w - 1) / w <= 0); [|unfold Py.len; simpl; lia].
      apply Z.lt_succ_r, Z.div_lt_upper_bound; lia.
Qed.

Lemma chunks_total (line : str) (width : Z) :
  width ≠ 0 → is_Some (chunks line width).
Proof.
  intros Hw. unfold chunks.
  destruct (range_total 0 (Py.len line) width Hw) as [starts ->]. done.
Qed.

(** For a positive width a line is cut into pieces that give the line back
    when concatenated, [ceil (len / width)] of them and at least one. *)
Lemma word_wrap_total (line : str) (width : Z) :
  0 < width →
  ∃ wrapped, word_wrap line width = Some wrapped ∧
    concat wrapped = line ∧
    Py.len wrapped = Z.max 1 (ceil_div (Py.len line) width).
Proof.
  intros Hw. unfold word_wrap, chunks, Py.range.
  destruct (Z.ltb_spec width (Py.len line)) as [Hlong|Hshort].
  - destruct (Z.eqb_spec width 0); [lia|].
    destruct (Z.ltb_spec 0 width); [|lia]. simpl.
    eexists; split; [reflexivity|]. split.
    + rewrite range_up_concat by lia. done.
    + unfold Py.len at 1. rewrite length_map.
      fold (Py.len (Py.range_up (Z.to_nat (Py.len line - 0)) 0 (Py.len line) width)).
      rewrite range_up_length by lia.
      rewrite Z.sub_0_r.
      pose proof (ceil_div_spec (Py.len line) width Hw). nia.
  - eexists; split; [reflexivity|]. split.
    + simpl. by rewrite app_nil_r.
    + pose proof (ceil_div_spec (Py.len line) width Hw).
      unfold Py.len at 1. simpl. nia.
Qed.

Lemma wrap_from_nonzero (ls : list str) (width : Z) :
  width ≠ 0 → ∀ idx, is_Some (wrap_from idx ls width).
Proof.
  intros Hw. induction ls as [|l rest IH]; intros idx; simpl; [done|].
  assert (is_Some (word_wrap l width)) as [wrapped ->].
  { unfold word_wrap. destruct (width <? Py.len l); [by apply chunks_total|done]. }
  simpl. destruct (IH (idx + 1)) as [segs ->]. done.
Qed.

Lemma wrap_from_tags (ls : list str) (width : Z) :
  ∀ idx segs, wrap_from idx ls width = Some segs →
  ∀ seg, seg ∈ segs → idx <= seg.1.
Proof.
  induction ls as [|line rest IH]; intros idx segs Hw seg Hin; simpl in Hw.
  - simplify_eq. by apply elem_of_nil in Hin.
  - destruct (word_wrap line width) as [wrapped|]; [|done]. simpl in Hw.
    destruct (wrap_from (idx + 1) rest width) as [segs'|] eqn:Hrest; [|done].
    simpl in Hw. simplify_eq.
    apply elem_of_app in Hin as [Hin|Hin].
    + apply list_elem_of_fmap in Hin as (w & -> & _). simpl. lia.
    + specialize (IH _ _ Hrest _ Hin). lia.
Qed.

(** The segments tagged with a row are the pieces of that row, in order. *)
Lemma wrap_from_own (ls : list str) (width : Z) :
  ∀ idx segs, wrap_from idx ls width = Some segs →
  ∀ (i : nat) line, ls !! i = Some line →
  ∃ wrapped, word_wrap line width = Some wrapped ∧
    filter (λ seg, seg.1 = idx + Z.of_nat i) segs
    = map (λ w, (idx + Z.of_nat i, w)) wrapped.
Proof.
  induction ls as [|l rest IH]; intros idx segs Hw i line Hi; [done|].
  simpl in Hw.
  destruct (word_wrap l width) as [wrapped|] eqn:Hl; [|done]. simpl in Hw.
  destruct (wrap_from (idx + 1) rest width) as [segs'|] eqn:Hrest; [|done].
  simpl in Hw. simplify_eq. rewrite filter_app.
  destruct i as [|i]; simpl in Hi.
  - simplify_eq. exists wrapped. split; [done|].
    rewrite Z.add_0_r.
    rewrite (filter_none _ segs').
    + rewrite app_nil_r. apply filter_all, Forall_forall.
      intros seg (w & -> & _)%list_elem_of_fmap. done.
    + apply Forall_forall. intros seg Hin.
      pose proof (wrap_from_tags _ _ _ _ Hrest _ Hin). lia.
  - destruct (IH _ _ Hrest _ _ Hi) as (wr & Hwr & Hf).
    exists wr. split; [done|].
    replace (idx + Z.of_nat (S i)) with (idx + 1 + Z.of_nat i) by lia.
    rewrite Hf.
    rewrite filter_none; [done|].
    apply Forall_forall. intros seg (w & -> & _)%list_elem_of_fmap. simpl. lia.
Qed.

(** C5: for a positive width, [wrap] returns display segments such that,
    for every row of the buffer, the segments tagged with that row
    concatenate to the line, and their number is [ceil (L / width)] for a
    line of length [L], and 1 when [L] is 0. *)
Theorem wrap_reconstructs_and_counts (ls : list str) (width : Z) :
  0 < width →
  ∃ segs, wrap ls width = Some segs ∧
    ∀ (i : nat) (line : str), ls !! i = Some line →
      let own := filter (λ seg, seg.1 = Z.of_nat i) segs in
      concat (snd <$> own) = line ∧
      Py.len own = Z.max 1 (ceil_div (Py.len line) width).
Proof.
  intros Hw.
  destruct (wrap_from_nonzero ls width ltac:(lia) 0) as [segs Hsegs].
  exists segs. split; [done|]. intros i line Hi own.
  destruct (wrap_from_own _ _ _ _ Hsegs i line Hi) as (wrapped & Hwr & Hown).
  destruct (word_wrap_total line width Hw) as (wrapped' & Hwr' & Hcat & Hlen).
  rewrite Hwr in Hwr'. injection Hwr' as <-.
  subst own. rewrite Z.add_0_l in Hown. rewrite Hown.
  split.
  - rewrite <- Hcat. f_equal. clear.
    induction wrapped as [|w ws IHw]; [done|]. simpl. by f_equal.
  - unfold Py.len in *. by rewrite length_map.
Qed.

Lemma wrap_reconstructs_and_counts_witness :
  0 < 5 ∧
  ∃ segs, wrap [py "abcdefgh"; []] 5 = Some segs ∧
    ∀ (i : nat) (line : str), [py "abcdefgh"; []] !! i = Some line →
      let own := filter (λ seg, seg.1 = Z.of_nat i) segs in
      concat (snd <$> own) = line ∧
      Py.len own = Z.max 1 (ceil_div (Py.len line) 5).
Proof.
  split; [lia|].
  apply (wrap_reconstructs_and_counts [py "abcdefgh"; []] 5). lia.
Defined.

Example wrap_scenario :
  wrap [py "abcdefgh"] 5 = Some [(0, py "abcde"); (0, py "fgh")].
Proof. vm_compute. reflexivity. Qed.

(** ** Substrings and replace *)

Lemma startswith_spec (p s : str) :
  Py.startswith p s = true ↔ ∃ post, s = p ++ post.
Proof.
  revert s. induction p as [|a p IH]; intros s; simpl.
  - split; [eauto|done].
  - destruct s as [|b s]; simpl.
    + split; [done|]. intros [post ?]. done.
    + rewrite andb_true_iff, N.eqb_eq, IH. split.
      * intros [-> [post ->]]. eauto.
      * intros [post [= -> ->]]. eauto.
Qed.

(** [sub in s] holds exactly when [sub] is a substring of [s]. *)
Lemma contains_spec (sub s : str) :
  Py.contains sub s = true ↔ ∃ pre post, s = pre ++ sub ++ post.
Proof.
  induction s as [|c s IH]; simpl.
  - rewrite orb_false_r, startswith_spec. split.
    + intros [post ->]. by exists [], post.
    + intros (pre & post & H). symmetry in H.
      apply app_eq_nil in H as [-> H]. apply app_eq_nil in H as [-> ->].
      by exists [].
  - rewrite orb_true_iff, startswith_spec, IH. split.
    + intros [[post ->]|(pre & post & ->)].
      * by exists [], post.
      * by exists (c :: pre), post.
    + intros (pre & post & H). destruct pre as [|d pre]; simpl in H.
      * left. eauto.
      * injection H as -> ->. right. eauto.
Qed.

Lemma contains_false_short (sub s : str) :
  (length s < length sub)%nat → Py.contains sub s = false.
Proof.
  intros Hlen. apply not_true_is_false. rewrite contains_spec.
  intros (pre & post & ->). rewrite !length_app in Hlen. lia.
Qed.

Lemma removelast_snoc (old : str) :
  old ≠ [] → ∃ c, old = removelast old ++ [c].
Proof.
  intros H. destruct (exists_last H) as (l & c & ->).
  exists c. by rewrite removelast_last.
Qed.

Lemma replaces_all_cons (old new : str) c s r :
  Py.startswith old (c :: s) = false →
  replaces_all old new s r →
  replaces_all old new (c :: s) (c :: r).
Proof.
  intros Hstart Hr. destruct Hr as [s Hno|p rest rest' Hp Hrest].
  - apply replaces_done. simpl Py.contains.
    simpl in Hstart. by rewrite Hstart, Hno.
  - apply (replaces_next old new (c :: p)); [|done].
    change ((c :: p) ++ removelast old) with (c :: (p ++ removelast old)).
    simpl Py.contains. rewrite Hp, orb_false_r.
    apply not_true_is_false. intros Hs.
    apply startswith_spec in Hs as [post Hpost].
    assert (Py.startswith old (c :: p ++ old ++ rest) = true) as Hyes; [|congruence].
    apply startswith_spec.
    destruct old as [|o old']; [by exists (c :: p ++ rest)|].
    destruct (removelast_snoc (o :: old') ltac:(done)) as [z Hz].
    exists (post ++ [z] ++ rest).
    remember (removelast (o :: old')) as rl.
    rewrite (app_assoc (o :: old') post), <- Hpost, Hz.
    simpl. by rewrite <- !app_assoc.
Qed.

Lemma replace_fuel_spec (old new : str) :
  old ≠ [] →
  ∀ fuel s, (length s < fuel)%nat →
  replaces_all old new s (Py.replace_fuel fuel s old new).
Proof.
  intros Hold. induction fuel as [|fuel IH]; intros s Hfuel; [lia|].
  simpl. destruct (Py.startswith old s) eqn:Hstart.
  - destruct old as [|o old']; [done|].
    apply startswith_spec in Hstart as [post ->].
    rewrite drop_app_length.
    apply (replaces_next (o :: old') new [] post).
    + apply contains_false_short. rewrite app_nil_l.
      destruct (removelast_snoc (o :: old') ltac:(done)) as [z Hz].
      apply (f_equal length) in Hz. rewrite length_app in Hz.
      simpl length in Hz at 3. lia.
    + apply IH. rewrite length_app in Hfuel. simpl in *. lia.
  - destruct s as [|c s].
    + apply replaces_done. simpl. by rewrite Hstart.
    + apply replaces_all_cons; [done|]. apply IH. simpl in Hfuel. lia.
Qed.

(** [s.replace(old, new)] replaces all the occurrences of a non-empty
    [old]. *)
Lemma replace_spec (old new s : str) :
  old ≠ [] → replaces_all old new s (Py.replace s old new).
Proof. intros. apply replace_fuel_spec; [done | lia]. Qed.

(** The loop over the rows [k .. k + m - 1] of a buffer of [k + m] lines. *)
Lemma replace_rows_from (old new : str) :
  ∀ (m k : nat) (ls : list str) (count : Z),
  length ls = (k + m)%nat →
  replace_rows old new (Z.of_nat <$> seq k m) ls count
  = Some (take k ls ++ (replace_line old new <$> drop k ls),
          count + Py.len (hits old (drop k ls))).
Proof.
  induction m as [|m IH]; intros k ls count Hlen; simpl.
  - rewrite drop_ge by lia. simpl. rewrite app_nil_r, take_ge by lia.
    unfold hits, Py.len. simpl. by rewrite Z.add_0_r.
  - destruct (lookup_lt_is_Some_2 ls k ltac:(lia)) as [line Hline].
    rewrite (getitem_nat _ _ _ Hline). simpl.
    rewrite (drop_S _ _ _ Hline), fmap_cons.
    destruct (Py.contains old line) eqn:Hc.
    + rewrite setitem_nat by lia. simpl.
      rewrite IH by (rewrite length_insert; lia).
      rewrite drop_insert_lt by lia.
      rewrite take_S_r with (x := Py.replace line old new)
        by (apply list_lookup_insert_eq; lia).
      rewrite take_insert_ge by lia.
      rewrite <- app_assoc. simpl.
      unfold hits. rewrite filter_cons_True by done.
      unfold replace_line at 2. rewrite Hc.
      do 2 f_equal. unfold Py.len. simpl length. lia.
    + rewrite IH by lia.
      rewrite (take_S_r _ _ _ Hline), <- app_assoc. simpl.
      unfold hits. rewrite filter_cons_False by congruence.
      unfold replace_line at 2. by rewrite Hc.
Qed.

(** The loop in place is a map over the lines, and never raises. *)
Lemma replace_all_map (old new : str) (ls : list str) :
  replace_all old new ls
  = Some (replace_line old new <$> ls, Py.len (hits old ls)).
Proof.
  unfold replace_all. rewrite range_rows. simpl.
  rewrite (replace_rows_from old new (length ls) 0) by done.
  by rewrite take_0, drop_0.
Qed.

Lemma replace_line_absent (old new : str) (ls : list str) :
  Forall (λ line, Py.contains old line = false) ls →
  replace_line old new <$> ls = ls.
Proof.
  induction 1 as [|line rest Hline _ IH]; [done|].
  rewrite fmap_cons, IH. unfold replace_line. by rewrite Hline.
Qed.

(** C6: for a non-empty find term the replace command returns; every line
    that contains the term has all its occurrences replaced, every other
    line is unchanged, and the count of the status message is the number of
    lines that contain the term (one per modified line, whatever the number
    of occurrences in it). *)
Theorem replace_all_lines (old new : str) (s : editor) :
  old ≠ [] →
  ∃ s', on_replace old new s = Some s' ∧
    length (lines s') = length (lines s) ∧
    (∀ (i : nat) (line : str), lines s !! i = Some line →
       if Py.contains old line
       then ∃ line', lines s' !! i = Some line' ∧ replaces_all old new line line'
       else lines s' !! i = Some line) ∧
    status_msg s' = Replaced (Py.len (hits old (lines s))).
Proof.
  intros Hold. unfold on_replace.
  change (lines (save_undo s)) with (lines s).
  rewrite replace_all_map. simpl.
  eexists; split; [reflexivity|]. simpl.
  split; [by rewrite length_fmap|]. split; [|done].
  intros i line Hi. rewrite list_lookup_fmap, Hi. simpl.
  unfold replace_line. destruct (Py.contains old line); [|done].
  eexists; split; [done|]. by apply replace_spec.
Qed.

Lemma replace_all_lines_witness :
  py "a" ≠ [] ∧
  ∃ s', on_replace (py "a") (py "b") fruit = Some s' ∧
    length (lines s') = length (lines fruit) ∧
    (∀ (i : nat) (line : str), lines fruit !! i = Some line →
       if Py.contains (py "a") line
       then ∃ line', lines s' !! i = Some line' ∧
                     replaces_all (py "a") (py "b") line line'
       else lines s' !! i = Some line) ∧
    status_msg s' = Replaced (Py.len (hits (py "a") (lines fruit))).
Proof.
  assert (py "a" ≠ []) as Hne by (vm_compute; congruence).
  split; [exact Hne|].
  exact (replace_all_lines (py "a") (py "b") fruit Hne).
Defined.

(** Four occurrences in two lines are counted as two. *)
Example replace_scenario :
  replace_all (py "a") (py "b") [py "banana"; py "apple"]
  = Some ([py "bbnbnb"; py "bpple"], 2).
Proof. vm_compute. reflexivity. Qed.

Example replace_empty_old : Py.replace (py "ab") [] (py "x") = py "xaxbx".
Proof. vm_compute. reflexivity. Qed.

(** ** Loading and saving text *)

Lemma splitlines_no_boundary (s : str) :
  Forall (Forall (λ c, Py.is_linebreak c = false)) (Py.splitlines s).
Proof.
  induction s as [|c rest IH]; simpl; [constructor|].
  destruct (Py.is_linebreak c) eqn:Hc.
  - constructor; [constructor|].
    destruct (c =? Py.CR)%N; [|done].
    destruct rest as [|d rest']; [done|].
    destruct (d =? Py.LF)%N eqn:Hd; [|done].
    apply N.eqb_eq in Hd as ->. simpl in IH. by inversion IH.
  - destruct (Py.splitlines rest) as [|l ls]; inversion IH; subst;
      repeat constructor; done.
Qed.

Lemma load_lines_no_boundary (content : str) :
  Forall (Forall (λ c, Py.is_linebreak c = false)) (load_lines content).
Proof.
  unfold load_lines.
  pose proof (splitlines_no_boundary (read_text content)) as H.
  destruct (Py.splitlines (read_text content)); [repeat constructor|done].
Qed.

Lemma read_text_only_newlines (content : str) :
  only_newlines content → read_text content = content.
Proof.
  induction 1 as [|c rest Hc _ IH]; simpl; [done|].
  destruct (N.eqb_spec c Py.CR) as [->|_]; [|by rewrite IH].
  by specialize (Hc eq_refl).
Qed.

Lemma splitlines_nil (s : str) : Py.splitlines s = [] → s = [].
Proof.
  destruct s as [|c rest]; [done|]. simpl.
  destruct (Py.is_linebreak c); [done|].
  by destruct (Py.splitlines rest).
Qed.

Lemma join_splitlines (s : str) :
  only_newlines s →
  (∀ body, s = body ++ [Py.LF] → Py.join [Py.LF] (Py.splitlines s) = body) ∧
  ((∀ body, s ≠ body ++ [Py.LF]) → Py.join [Py.LF] (Py.splitlines s) = s).
Proof.
  induction 1 as [|c rest Hc Hrest [IHa IHb]]; simpl.
  - split; [|done]. intros body Hb. by destruct body.
  - destruct (Py.is_linebreak c) eqn:Hlb.
    + rewrite (Hc eq_refl). change (10 =? Py.CR)%N with false.
      destruct (Py.splitlines rest) as [|l ls] eqn:Hs.
      * apply splitlines_nil in Hs as ->. split.
        -- intros body Hb. destruct body as [|b [|b' body]]; by simplify_eq.
        -- intros Hno. by destruct (Hno []).
      * assert (rest ≠ []) as Hne by (intros ->; done).
        split.
        -- intros body Hb. destruct body as [|b body]; simpl in Hb.
           { injection Hb as Hr. done. }
           injection Hb as <- ->. simpl. f_equal. by apply IHa.
        -- intros Hno. simpl. f_equal. apply IHb.
           intros body ->. by apply (Hno (Py.LF :: body)).
    + assert (c ≠ Py.LF) as HcLF by (intros ->; done).
      assert (Py.join [Py.LF]
                match Py.splitlines rest with
                | [] => [[c]]
                | l :: ls => (c :: l) :: ls
                end = c :: Py.join [Py.LF] (Py.splitlines rest)) as ->.
      { destruct (Py.splitlines rest) as [|l [|l' ls]]; done. }
      split.
      * intros body Hb. destruct body as [|b body]; simpl in Hb.
        { injection Hb as -> _. done. }
        injection Hb as <- ->. f_equal. by apply IHa.
      * intros Hno. f_equal. apply IHb.
        intros body ->. by apply (Hno (c :: body)).
Qed.

Lemma serialize_load_lines (content : str) :
  serialize (load_lines content)
  = Py.join [Py.LF] (Py.splitlines (read_text content)).
Proof.
  unfold serialize, load_lines.
  by destruct (Py.splitlines (read_text content)).
Qed.

(** A character that is no boundary joins the first piece of what follows. *)
Lemma split_cons_plain (c : char) (rest : str) (ls : list str) :
  Py.is_linebreak c = false → split_at_boundaries rest ls →
  split_at_boundaries (c :: rest)
    (match ls with [] => [[c]] | l :: ls' => (c :: l) :: ls' end).
Proof.
  intros Hc Hs.
  inversion Hs as [|line Hne Hplain|line sep rest' ls' Hplain Hsep Hcr Hrest];
    subst.
  - apply split_last; [done|by constructor].
  - apply split_last; [done|by constructor].
  - apply (split_next (c :: line)); [by constructor|done..].
Qed.

(** What is read and split is split at the boundaries of the content; the
    bound [n] on the length carries the induction past a CR LF. *)
Lemma splitlines_read_text_split :
  ∀ (n : nat) (content : str), (length content <= n)%nat →
  split_at_boundaries content (Py.splitlines (read_text content)).
Proof.
  induction n as [|n IH]; intros content Hn.
  - destruct content; [constructor|simpl in Hn; lia].
  - destruct content as [|c rest]; [constructor|]. simpl in Hn.
    cbn [read_text]. destruct (N.eqb_spec c Py.CR) as [->|Hcr].
    + destruct rest as [|d rest'].
      * apply (split_next [] [Py.CR] [] []); [done|by constructor|done|constructor].
      * destruct (N.eqb_spec d Py.LF) as [->|Hd].
        -- change (Py.splitlines (Py.LF :: read_text rest'))
             with ([] :: Py.splitlines (read_text rest')).
           apply (split_next [] [Py.CR; Py.LF] rest'); [done|constructor|done|].
           apply IH. simpl in Hn. lia.
        -- change (Py.splitlines (Py.LF :: read_text (d :: rest')))
             with ([] :: Py.splitlines (read_text (d :: rest'))).
           apply (split_next [] [Py.CR] (d :: rest')); [done|by constructor| |].
           ++ intros _. simpl. congruence.
           ++ apply IH. lia.
    + cbn [Py.splitlines]. destruct (Py.is_linebreak c) eqn:Hlb.
      * destruct (N.eqb_spec c Py.CR) as [?|_]; [done|].
        apply (split_next [] [c] rest); [done|by constructor| |].
        ++ intros [= ->]. done.
        ++ apply IH. lia.
      * apply split_cons_plain; [done|]. apply IH. lia.
Qed.

Lemma boundary_head (sep : str) :
  boundary sep → ∃ c t, sep = c :: t ∧ Py.is_linebreak c = true.
Proof. intros [|c Hc]; [by exists Py.CR, [Py.LF]|by exists c, []]. Qed.

(** The first boundary character of a text is where it is. *)
Lemma first_boundary (l l' : str) (c c' : char) (t t' : str) :
  Forall (λ c, Py.is_linebreak c = false) l →
  Forall (λ c, Py.is_linebreak c = false) l' →
  Py.is_linebreak c = true → Py.is_linebreak c' = true →
  l ++ c :: t = l' ++ c' :: t' → l = l' ∧ c = c' ∧ t = t'.
Proof.
  intros Hl. revert l'. induction Hl as [|a l Ha _ IH]; intros l' Hl' Hc Hc' Heq.
  - destruct Hl' as [|a' l' Ha' _]; simpl in Heq.
    + by injection Heq as -> ->.
    + injection Heq as -> _. congruence.
  - destruct Hl' as [|a' l' Ha' Hl']; simpl in Heq.
    + injection Heq as -> _. congruence.
    + injection Heq as -> Heq. destruct (IH l' Hl' Hc Hc' Heq) as (-> & -> & ->).
      done.
Qed.

Lemma plain_no_boundary (line l : str) (sep rest : str) :
  Forall (λ c, Py.is_linebreak c = false) line →
  boundary sep → line ≠ l ++ sep ++ rest.
Proof.
  intros Hplain (c & t & -> & Hc)%boundary_head ->.
  apply Forall_app in Hplain as [_ Hplain]. simpl in Hplain.
  apply Forall_cons in Hplain as [Hplain _]. congruence.
Qed.

(** The pieces are determined by the content. *)
Lemma split_at_boundaries_unique (content : str) (ls ls' : list str) :
  split_at_boundaries content ls → split_at_boundaries content ls' → ls = ls'.
Proof.
  intros Hs. revert ls'.
  induction Hs as [|line Hne Hplain|line sep rest ls Hplain Hsep Hcr Hrest IH];
    intros ls' Hs'.
  - inversion Hs' as [|line' ? ?|line' sep' rest' ls'' ? Hsep' ? ? Heq]; subst;
      [done|done|].
    apply boundary_head in Hsep' as (c & t & -> & _). by destruct line'.
  - inversion Hs' as [|line' ? ?|line' sep' rest' ls'' ? Hsep' ? ? Heq]; subst;
      [done|done|].
    by destruct (plain_no_boundary _ line' sep' rest' Hplain Hsep').
  - inversion Hs' as [Heq|line' ? Hplain' Heq
                      |line' sep' rest' ls'' Hplain' Hsep' Hcr' Hrest' Heq]; subst.
    + apply boundary_head in Hsep as (c & t & -> & _). by destruct line.
    + by destruct (plain_no_boundary _ line sep rest Hplain' Hsep).
    + assert (line' = line ∧ sep' = sep ∧ rest' = rest) as (-> & -> & ->).
      { assert (Py.is_linebreak Py.CR = true) as Hbreak by done.
        destruct Hsep as [|c Hc]; destruct Hsep' as [|c' Hc']; simpl in Heq.
        - by destruct (first_boundary _ _ _ _ _ _ Hplain' Hplain Hbreak Hbreak Heq)
            as (-> & _ & [= ->]).
        - destruct (first_boundary _ _ _ _ _ _ Hplain' Hplain Hc' Hbreak Heq)
            as (-> & -> & ->).
          by destruct (Hcr' eq_refl).
        - destruct (first_boundary _ _ _ _ _ _ Hplain' Hplain Hbreak Hc Heq)
            as (-> & <- & <-).
          by destruct (Hcr eq_refl).
        - by destruct (first_boundary _ _ _ _ _ _ Hplain' Hplain Hc' Hc Heq)
            as (-> & -> & ->). }
      f_equal. by apply IH.
Qed.

(** C7, as amended: loading empty text yields a single empty line; the
    lines loaded from any other content are exactly the pieces of the
    content between the line boundaries of [str.splitlines], in order (they
    are the only lines that split the content at its boundaries), so that
    no loaded line holds a boundary character; and for a text whose only
    line boundary is the newline character, what a save writes after a load
    is the text without its final newline, if it had one, and the text
    itself otherwise. *)
Theorem load_save_round_trip (content text : str) :
  only_newlines text →
  load_lines [] = [[]] ∧
  (content ≠ [] →
   split_at_boundaries content (load_lines content) ∧
   ∀ ls, split_at_boundaries content ls → ls = load_lines content) ∧
  Forall (Forall (λ c, Py.is_linebreak c = false)) (load_lines content) ∧
  (∀ body, text = body ++ [Py.LF] → serialize (load_lines text) = body) ∧
  ((∀ body, text ≠ body ++ [Py.LF]) → serialize (load_lines text) = text).
Proof.
  intros Hclean.
  split; [done|]. split.
  { intros Hne.
    pose proof (splitlines_read_text_split (length content) content (le_n _))
      as Hsplit.
    assert (load_lines content = Py.splitlines (read_text content)) as ->.
    { unfold load_lines.
      destruct (Py.splitlines (read_text content)) as [|l ls]; [|done].
      by inversion Hsplit. }
    split; [done|]. intros ls Hls.
    by apply (split_at_boundaries_unique content). }
  split; [apply load_lines_no_boundary|].
  rewrite serialize_load_lines, read_text_only_newlines by done.
  by apply join_splitlines.
Qed.

Lemma load_save_round_trip_witness :
  let content := (py "a" ++ [12] ++ py "b")%N in
  let text := (py "a" ++ [10] ++ py "b" ++ [10])%N in
  only_newlines text ∧
  load_lines [] = [[]] ∧
  (content ≠ [] →
   split_at_boundaries content (load_lines content) ∧
   ∀ ls, split_at_boundaries content ls → ls = load_lines content) ∧
  Forall (Forall (λ c, Py.is_linebreak c = false)) (load_lines content) ∧
  (∀ body, text = body ++ [Py.LF] → serialize (load_lines text) = body) ∧
  ((∀ body, text ≠ body ++ [Py.LF]) → serialize (load_lines text) = text).
Proof.
  intros content text.
  assert (only_newlines text) as Hclean.
  { unfold only_newlines. repeat constructor; vm_compute; congruence. }
  split; [exact Hclean|].
  exact (load_save_round_trip content text Hclean).
Defined.

(** C7, counterexample: a form feed is no newline, yet the text is split
    there, and the save writes a newline in its place. *)
Lemma load_splits_at_form_feed :
  let content := (py "a" ++ [12] ++ py "b")%N in
  Py.contains [Py.LF] content = false ∧
  load_lines content = [py "a"; py "b"] ∧
  serialize (load_lines content) ≠ content ∧
  serialize (load_lines content) ++ [Py.LF] ≠ content.
Proof. repeat split; vm_compute; congruence. Qed.

Example splitlines_boundaries :
  Py.splitlines (py "ab" ++ [13; 10] ++ py "c" ++ [10; 10])%N
  = [py "ab"; py "c"; []].
Proof. vm_compute. reflexivity. Qed.

Example load_missing_file :
  lines (start (Some (py "missing.txt")) false ∅) = [[]] ∧
  status_msg (start (Some (py "missing.txt")) false ∅) = NewFile (py "missing.txt").
Proof. split; vm_compute; reflexivity. Qed.

(** ** Frames *)

Lemma render_same_document tty s f s' :
  render tty s = Some (f, s') → same_document s s'.
Proof.
  destruct tty as [[height width] raises]. unfold render.
  cbn [getmaxyx draw_raises].
  destruct (chunks menu_text (width - 1)) as [menu|]; [|done]. simpl.
  destruct (wrap (lines s) (width - LINE_NUMBER_WIDTH)) as [segs|]; [|done]. simpl.
  destruct raises; [done|].
  destruct (locate_cursor 0 segs (cursor_y s) (cursor_x s)) as [vis cx].
  intros [= <- <-]. by split.
Qed.


Lemma locate_cursor_origin (segs : list (Z * str)) :
  ∀ i cy, (locate_cursor i segs cy 0).2 = 0.
Proof.
  induction segs as [|[orig wline] rest IH]; intros i cy; simpl; [done|].
  destruct (orig =? cy); [|done].
  destruct (Z.leb_spec 0 (Py.len wline)); [done|]. unfold Py.len in *. lia.
Qed.

Lemma render_cursor_origin tty s f s' :
  render tty s = Some (f, s') → cursor_x s = 0 → cursor_x s' = 0.
Proof.
  destruct tty as [[height width] raises]. unfold render.
  cbn [getmaxyx draw_raises].
  destruct (chunks menu_text (width - 1)) as [menu|]; [|done]. simpl.
  destruct (wrap (lines s) (width - LINE_NUMBER_WIDTH)) as [segs|]; [|done]. simpl.
  destruct raises; [done|].
  intros Hr Hx. rewrite Hx in Hr.
  pose proof (locate_cursor_origin segs 0 (cursor_y s)) as H0.
  destruct (locate_cursor 0 segs (cursor_y s) 0) as [vis cx].
  simpl in H0. by simplify_eq.
Qed.

Lemma step_inv tty k s s' :
  step tty k s = Next s' →
  ∃ f s0, render tty s = Some (f, s0) ∧ handle_key f k s0 = Next s'.
Proof.
  unfold step. destruct (render tty s) as [[f s0]|]; [eauto|done].
Qed.


(** ** History *)

(** The undo stack after [save_undo]: the snapshot on top of the former
    stack, whose oldest entry may be gone. *)
Lemma save_undo_stack (s : editor) :
  ∃ kept, undo_stack (save_undo s) = kept ++ [lines s] ∧
          kept `suffix_of` undo_stack s.
Proof.
  unfold save_undo. simpl.
  destruct (Z.ltb_spec 100 (Py.len (undo_stack s ++ [lines s]))) as [Hfull|_].
  - destruct (undo_stack s) as [|u us].
    + unfold Py.len in Hfull. simpl in Hfull. lia.
    + exists us. split; [done|]. by exists [u].
  - by exists (undo_stack s).
Qed.


(** A command that calls [save_undo] does so before anything else, touches
    the history no further, and sets the modified flag. *)
Lemma mutating_history f k s s' :
  mutating k = true → handle_key f k s = Next s' →
  undo_stack s' = undo_stack (save_undo s) ∧ redo_stack s' = [] ∧
  modified s' = true.
Proof.
  intros Hk Hs. destruct k; try done; cbn [handle_key] in Hs.
  - unfold on_backspace in Hs. returned Hs; by subst s'.
  - unfold on_enter in Hs. returned Hs; by subst s'.
  - unfold on_tab, insert_text in Hs. returned Hs; by subst s'.
  - unfold on_replace in Hs. returned Hs; by subst s'.
  - unfold on_cut in Hs. returned Hs; by subst s'.
  - injection Hs as <-. done.
  - simpl in Hk. rewrite Hk in Hs.
    unfold on_char, insert_text in Hs. returned Hs; by subst s'.
Qed.


Lemma step_snapshot_taken tty k s s' :
  mutating k = true → step tty k s = Next s' → snapshot_taken s s'.
Proof.
  intros Hk (f & s0 & Hr & Hh)%step_inv.
  destruct (render_same_document _ _ _ _ Hr) as [_ Hl _ _ _ _ Hu _ _].
  destruct (mutating_history _ _ _ _ Hk Hh) as (Hundo & Hredo & Hmod).
  split; [|done]. rewrite Hundo, <- Hl, <- Hu. apply save_undo_stack.
Qed.











(** C10: in an iteration whose frame returns, Backspace with the cursor at
    row 0, column 0, and a replace whose find term occurs in no line (the
    terms being what the two prompts returned), are executed, leave every
    line of the buffer as it is, and still push the snapshot on the undo
    stack, clear the redo stack and set the modified flag. *)
Theorem idle_edits_still_snapshot (s t : editor) (tty : terminal) (old new : str) :
  is_Some (render tty s) → is_Some (render tty t) →
  cursor_y s = 0 → cursor_x s = 0 →
  Forall (λ line, Py.contains old line = false) (lines t) →
  (∃ s', step tty KeyBackspace s = Next s' ∧
     lines s' = lines s ∧ snapshot_taken s s') ∧
  (∃ t', step tty (KeyReplace old new) t = Next t' ∧
     lines t' = lines t ∧ snapshot_taken t t').
Proof.
  intros [[f s0] Hr] [[g t0] Hr'] Hcy Hcx Habsent. split.
  - destruct (render_same_document _ _ _ _ Hr) as [_ Hl Hy _ _ _ _ _ _].
    pose proof (render_cursor_origin _ _ _ _ Hr Hcx) as Hx0.
    assert (step tty KeyBackspace s = Next (set_modified (save_undo s0) true)) as Hs.
    { unfold step. rewrite Hr. cbn [handle_key]. unfold on_backspace.
      cbn [cursor_x cursor_y set_modified save_undo set_history].
      by rewrite Hx0, Hy, Hcy. }
    eexists. split; [exact Hs|]. split; [exact Hl|].
    exact (step_snapshot_taken tty KeyBackspace s _ eq_refl Hs).
  - destruct (render_same_document _ _ _ _ Hr') as [_ Hl Hy _ _ _ _ _ _].
    assert (step tty (KeyReplace old new) t
            = Next (set_status
                      (set_modified (set_lines (save_undo t0) (lines t0)) true)
                      (Replaced 0))) as Hs.
    { unfold step. rewrite Hr'. cbn [handle_key]. unfold on_replace.
      change (lines (save_undo t0)) with (lines t0).
      rewrite replace_all_map. simpl.
      rewrite replace_line_absent by (by rewrite Hl).
      unfold hits. rewrite filter_none; [done|].
      rewrite Hl. eapply Forall_impl; [exact Habsent|]. simpl. congruence. }
    eexists. split; [exact Hs|]. split; [exact Hl|].
    exact (step_snapshot_taken tty (KeyReplace old new) t _ eq_refl Hs).
Qed.

Lemma idle_edits_still_snapshot_witness :
  is_Some (render wide blank) ∧ is_Some (render wide fruit) ∧
  cursor_y blank = 0 ∧ cursor_x blank = 0 ∧
  Forall (λ line, Py.contains (py "z") line = false) (lines fruit) ∧
  (∃ s', step wide KeyBackspace blank = Next s' ∧
     lines s' = lines blank ∧ snapshot_taken blank s') ∧
  (∃ t', step wide (KeyReplace (py "z") (py "y")) fruit = Next t' ∧
     lines t' = lines fruit ∧ snapshot_taken fruit t').
Proof.
  assert (is_Some (render wide blank)) as Hr
    by (vm_compute; eexists; reflexivity).
  assert (is_Some (render wide fruit)) as Hr'
    by (vm_compute; eexists; reflexivity).
  assert (cursor_y blank = 0) as Hcy by reflexivity.
  assert (cursor_x blank = 0) as Hcx by reflexivity.
  assert (Forall (λ line, Py.contains (py "z") line = false) (lines fruit))
    as Habsent by (repeat constructor).
  repeat (split; [assumption|]).
  exact (idle_edits_still_snapshot blank fruit wide (py "z") (py "y")
           Hr Hr' Hcy Hcx Habsent).
Defined.

(** ** Saving *)

Lemma backup_name_fresh (path : str) : path ++ py "~" ≠ path.
Proof.
  intros H. apply (f_equal length) in H. rewrite length_app in H.
  simpl in H. lia.
Qed.

Lemma backup_name_not_recent (path : str) : path ++ py "~" ≠ RECENT_FILES.
Proof.
  intros H. apply (f_equal last) in H.
  change (py "~") with [126%N] in H. rewrite last_snoc in H.
  vm_compute in H. congruence.
Qed.

Lemma save_files_backup (io : io_faults) (path : str) (ls : list str)
    (fs : gmap (list N) (list N)) (old : str) :
  (save_files io path ls fs).2 = true → fs !! path = Some old →
  (save_files io path ls fs).1 !! (path ++ py "~") = Some old ∧
  (path ≠ RECENT_FILES →
   (save_files io path ls fs).1 !! path = Some (serialize ls)).
Proof.
  intros Hsave Hold. unfold save_files, write_out in *. rewrite Hold in *.
  destruct (rename_fails io); [done|].
  destruct (write_fails io); [done|]. simpl.
  unfold save_recent_file. destruct (recent_fails io).
  - split.
    + rewrite lookup_insert_ne by (symmetry; apply backup_name_fresh).
      apply lookup_insert_eq.
    + intros _. apply lookup_insert_eq.
  - split.
    + rewrite lookup_insert_ne by (symmetry; apply backup_name_not_recent).
      rewrite lookup_insert_ne by (symmetry; apply backup_name_fresh).
      apply lookup_insert_eq.
    + intros Hne. rewrite lookup_insert_ne by done. apply lookup_insert_eq.
Qed.

(** C9: when a save succeeds (the status reports the written path) and a
    file existed at that path, the file [path~] holds afterwards the
    content that the file had before the save, whatever backup was there;
    the path itself holds the serialized buffer (the recent-files list
    apart, to which the path is appended). *)
Theorem save_keeps_backup (s s' : editor) (tty : terminal) (answer : str)
    (io : io_faults) (path old : str) :
  step tty (KeySave answer io) s = Next s' →
  status_msg s' = Wrote path →
  files s !! path = Some old →
  files s' !! (path ++ py "~") = Some old ∧
  (path ≠ RECENT_FILES → files s' !! path = Some (serialize (lines s))).
Proof.
  intros (f & s0 & Hr & Hh)%step_inv Hst Hold.
  destruct (render_same_document _ _ _ _ Hr) as [Hn Hl _ _ _ _ _ _ Hf].
  cbn [handle_key] in Hh. injection Hh as <-.
  rewrite <- Hf in Hold. rewrite <- Hl. clear Hr Hn Hl Hf.
  unfold on_save in *.
  destruct (truthy (filename s0)) as [name|] eqn:Hname.
  - rewrite Hname in *.
    destruct (save_files io name (lines s0) (files s0)).2 eqn:Hsave;
      simpl in Hst; [|done].
    injection Hst as ->. simpl. by apply save_files_backup.
  - cbn [filename set_filename lines files] in *.
    destruct (truthy (Some answer)) as [name|] eqn:Hanswer; [|done].
    destruct (save_files io name (lines s0) (files s0)).2 eqn:Hsave;
      simpl in Hst; [|done].
    injection Hst as ->. simpl. by apply save_files_backup.
Qed.

Lemma save_keeps_backup_witness :
  step wide (KeySave [] no_faults) notes = Next notes_saved ∧
  status_msg notes_saved = Wrote (py "notes.txt") ∧
  files notes !! py "notes.txt" = Some (py "old") ∧
  files notes_saved !! (py "notes.txt" ++ py "~") = Some (py "old") ∧
  (py "notes.txt" ≠ RECENT_FILES →
   files notes_saved !! py "notes.txt" = Some (serialize (lines notes))).
Proof.
  assert (step wide (KeySave [] no_faults) notes = Next notes_saved) as Hs
    by (vm_compute; reflexivity).
  assert (status_msg notes_saved = Wrote (py "notes.txt")) as Hw
    by (vm_compute; reflexivity).
  assert (files notes !! py "notes.txt" = Some (py "old")) as Hold
    by (vm_compute; reflexivity).
  split; [exact Hs|]. split; [exact Hw|]. split; [exact Hold|].
  exact (save_keeps_backup notes notes_saved wide [] no_faults
           (py "notes.txt") (py "old") Hs Hw Hold).
Defined.

Example save_scenario :
  files notes_saved !! py "notes.txt~" = Some (py "old") ∧
  files notes_saved !! py "notes.txt" = Some (py "new") ∧
  modified notes_saved = false.
Proof. vm_compute. done. Qed.

(** A write that fails comes after the rename: the former file is in the
    backup and the buffer stays flagged. When [open] raised, nothing is at
    the path; when the write raised after two characters, they are there. *)
Example failed_write_scenario :
  let s := on_save [] (Faults false true None false) notes in
  let s' := on_save [] (Faults false true (Some 2%nat) false) notes in
  status_msg s = ErrorSaving ∧ modified s = true ∧
  files s !! py "notes.txt" = None ∧
  files s !! py "notes.txt~" = Some (py "old") ∧
  status_msg s' = ErrorSaving ∧ modified s' = true ∧
  files s' !! py "notes.txt" = Some (py "ne") ∧
  files s' !! py "notes.txt~" = Some (py "old").
Proof. vm_compute. done. Qed.

(** ** Defects of the source *)

(** C1, at the failing input: Ctrl-K on the single empty line of a new
    document leaves a buffer with no line at all (nothing is put in place
    of the cut line), and the next printable key raises IndexError. *)
Theorem cut_empties_single_line_buffer :
  buffer_nonempty blank ∧
  step wide KeyCut blank = Next cut_blank ∧
  lines cut_blank = [] ∧
  ¬ buffer_nonempty cut_blank ∧
  step wide (KeyOther 97) cut_blank = Raise.
Proof.
  split; [vm_compute; congruence|].
  split; [vm_compute; reflexivity|].
  split; [vm_compute; reflexivity|].
  split; [|vm_compute; reflexivity].
  intros H. apply H. vm_compute. reflexivity.
Qed.

(** C2, at the failing input: Enter in a new document puts the cursor on
    row 1 of two lines; the undo restores the one-line buffer and leaves
    the cursor on row 1, out of the buffer, and the next Right key raises
    IndexError. *)
Theorem undo_leaves_cursor_out_of_buffer :
  cursor_in_bounds blank ∧
  step wide KeyEnter blank = Next entered ∧
  cursor_in_bounds entered ∧
  step wide KeyUndo entered = Next entered_undone ∧
  lines entered_undone = [[]] ∧
  cursor_y entered_undone = 1 ∧
  ¬ cursor_in_bounds entered_undone ∧
  step wide KeyRight entered_undone = Raise.
Proof.
  split.
  { split; [vm_compute; split; congruence|].
    exists []. split; vm_compute; [reflexivity | split; congruence]. }
  split; [vm_compute; reflexivity|].
  split.
  { split; [vm_compute; split; [congruence | reflexivity]|].
    exists []. split; vm_compute; [reflexivity | split; congruence]. }
  split; [vm_compute; reflexivity|].
  split; [vm_compute; reflexivity|].
  split; [vm_compute; reflexivity|].
  split; [|vm_compute; reflexivity].
  intros [[_ Hlt] _]. vm_compute in Hlt. congruence.
Qed.

(** C8, at the failing input: on a terminal of 80 columns (75 columns of
    text), with a line of 76 characters and the cursor at its end, drawing
    one frame leaves the variable [cursor_x] at 1, the offset inside the
    second display segment, instead of 76; the key typed next is inserted
    at column 1. *)
Theorem frame_moves_logical_cursor :
  run typing blank = Next typed ∧
  lines typed = [replicate 76 97%N] ∧ cursor_y typed = 0 ∧ cursor_x typed = 76 ∧
  (∃ f s', render wide typed = Some (f, s') ∧
     wrapped_lines f = [(0, replicate 75 97%N); (0, [97%N])] ∧
     visible_line_idx f = 1 ∧
     cursor_y s' = 0 ∧ cursor_x s' = 1) ∧
  (∃ s'', step wide (KeyOther 88) typed = Next s'' ∧
     lines s'' = [97%N :: 88%N :: replicate 75 97%N]).
Proof.
  split; [vm_compute; reflexivity|].
  split; [vm_compute; reflexivity|].
  split; [vm_compute; reflexivity|].
  split; [vm_compute; reflexivity|].
  split.
  - eexists _, _. split; [vm_compute; reflexivity|].
    repeat split; vm_compute; reflexivity.
  - eexists. split; vm_compute; reflexivity.
Qed.

(** ** Scenarios *)

Example find_scenario :
  ∃ s, on_where_is (py "world")
         (Editor None [py "hello world"] 0 0 0 Welcome false [] [] [] ∅) = Some s ∧
       cursor_y s = 0 ∧ cursor_x s = 6.
Proof. eexists. repeat split; vm_compute; reflexivity. Qed.

Example cut_paste_scenario :
  ∃ s, on_cut (Editor None [py "abc"; py "def"] 0 0 0 Welcome false [] [] [] ∅)
       = Some s ∧
    lines s = [py "def"] ∧ clipboard_line s = py "abc" ∧
    lines (on_paste s) = [py "abc"; py "def"].
Proof. eexists. repeat split; vm_compute; reflexivity. Qed.

(** * Further properties of the code *)



(** ** Indexing inside the range *)

Section Indexing.
Context {A : Type}.
Implicit Types l : list A.

Lemma getitem_in_range l i :
  0 <= i < Py.len l → ∃ x, Py.getitem l i = Some x ∧ l !! Z.to_nat i = Some x.
Proof.
  intros Hi. unfold Py.len in Hi.
  destruct (lookup_lt_is_Some_2 l (Z.to_nat i) ltac:(lia)) as [x Hx].
  exists x. split; [|done].
  rewrite <- (Z2Nat.id i) by lia. by apply getitem_nat.
Qed.

Lemma getitem_nonneg l i x :
  0 <= i → Py.getitem l i = Some x → i < Py.len l ∧ l !! Z.to_nat i = Some x.
Proof.
  intros Hi. unfold Py.getitem, Py.norm_index.
  destruct (Z.ltb_spec i 0); [lia|].
  destruct (Z.leb_spec 0 i); [|lia].
  destruct (Z.ltb_spec i (Py.len l)); [|done]. simpl. done.
Qed.

Lemma setitem_in_range l i x :
  0 <= i < Py.len l → Py.setitem l i x = Some (<[Z.to_nat i := x]> l).
Proof.
  intros Hi. unfold Py.len in Hi.
  rewrite <- (Z2Nat.id i) at 1 by lia. apply setitem_nat. lia.
Qed.

Lemma pop_in_range l i :
  0 <= i < Py.len l →
  ∃ x, Py.pop l i = Some (x, delete (Z.to_nat i) l) ∧ l !! Z.to_nat i = Some x.
Proof.
  intros Hi. unfold Py.pop, Py.norm_index.
  destruct (Z.ltb_spec i 0); [lia|].
  destruct (Z.leb_spec 0 i); [|lia].
  destruct (Z.ltb_spec i (Py.len l)); [|lia]. simpl.
  unfold Py.len in Hi.
  destruct (lookup_lt_is_Some_2 l (Z.to_nat i) ltac:(lia)) as [x Hx].
  exists x. by rewrite Hx.
Qed.

Lemma insert_in_range l i x :
  0 <= i <= Py.len l →
  Py.insert l i x = take (Z.to_nat i) l ++ x :: drop (Z.to_nat i) l.
Proof.
  intros Hi. unfold Py.insert. rewrite clamp_nonneg by lia.
  unfold Py.len in Hi. by rewrite Nat.min_l by lia.
Qed.


Lemma slice_to_nonneg l i : 0 <= i → Py.slice_to l i = take (Z.to_nat i) l.
Proof.
  intros Hi. unfold Py.slice_to. rewrite clamp_nonneg by done.
  destruct (Nat.le_gt_cases (Z.to_nat i) (length l)).
  - by rewrite Nat.min_l.
  - rewrite Nat.min_r by lia. by rewrite !take_ge by lia.
Qed.

Lemma slice_from_nonneg l i : 0 <= i → Py.slice_from l i = drop (Z.to_nat i) l.
Proof.
  intros Hi. unfold Py.slice_from. rewrite clamp_nonneg by done.
  destruct (Nat.le_gt_cases (Z.to_nat i) (length l)).
  - by rewrite Nat.min_l.
  - rewrite Nat.min_r by lia. by rewrite !drop_ge by lia.
Qed.

Lemma len_nonneg l : 0 <= Py.len l.
Proof. unfold Py.len. lia. Qed.

Lemma len_app l k : Py.len (l ++ k) = Py.len l + Py.len k.
Proof. unfold Py.len. rewrite length_app. lia. Qed.
End Indexing.

(** ** The cursor stays inside the buffer *)

(** The cursor of [s] put at row [y], column [x] of the same buffer. *)
Lemma set_cursor_in_bounds (s : editor) (y x : Z) (line : str) :
  0 <= y < Py.len (lines s) →
  lines s !! Z.to_nat y = Some line →
  0 <= x <= Py.len line →
  cursor_in_bounds (set_cursor s y x).
Proof. intros Hy Hl Hx. split; [done|]. by exists line. Qed.

Lemma on_up_in_bounds (s : editor) :
  cursor_in_bounds s →
  ∃ s', on_up s = Some s' ∧ lines s' = lines s ∧ cursor_in_bounds s'.
Proof.
  intros [Hy (line & Hl & Hx)]. unfold on_up.
  destruct (getitem_in_range (lines s) (Z.max 0 (cursor_y s - 1)) ltac:(lia))
    as (l & -> & Hl'). simpl.
  eexists; split; [done|]. split; [done|].
  apply (set_cursor_in_bounds s _ _ l); [lia | done |].
  pose proof (len_nonneg l). lia.
Qed.

Lemma on_down_in_bounds (s : editor) :
  cursor_in_bounds s →
  ∃ s', on_down s = Some s' ∧ lines s' = lines s ∧ cursor_in_bounds s'.
Proof.
  intros [Hy (line & Hl & Hx)]. unfold on_down.
  destruct (getitem_in_range (lines s)
              (Z.min (Py.len (lines s) - 1) (cursor_y s + 1)) ltac:(lia))
    as (l & -> & Hl'). simpl.
  eexists; split; [done|]. split; [done|].
  apply (set_cursor_in_bounds s _ _ l); [lia | done |].
  pose proof (len_nonneg l). lia.
Qed.

Lemma on_left_in_bounds (s : editor) :
  cursor_in_bounds s →
  ∃ s', on_left s = Some s' ∧ lines s' = lines s ∧ cursor_in_bounds s'.
Proof.
  intros [Hy (line & Hl & Hx)]. unfold on_left.
  destruct (Z.ltb_spec 0 (cursor_x s)).
  - eexists; split; [done|]. split; [done|].
    apply (set_cursor_in_bounds s _ _ line); [done | done | lia].
  - destruct (Z.ltb_spec 0 (cursor_y s)).
    + destruct (getitem_in_range (lines s) (cursor_y s - 1) ltac:(lia))
        as (l & -> & Hl'). simpl.
      eexists; split; [done|]. split; [done|].
      apply (set_cursor_in_bounds s _ _ l); [lia | done |].
      pose proof (len_nonneg l). lia.
    + exists s. split; [done|]. split; [done|]. split; [done|]. by exists line.
Qed.

Lemma on_right_in_bounds (s : editor) :
  cursor_in_bounds s →
  ∃ s', on_right s = Some s' ∧ lines s' = lines s ∧ cursor_in_bounds s'.
Proof.
  intros [Hy (line & Hl & Hx)]. unfold on_right.
  destruct (getitem_in_range (lines s) (cursor_y s) Hy) as (l & -> & Hl').
  simpl. assert (l = line) as -> by congruence.
  destruct (Z.ltb_spec (cursor_x s) (Py.len line)).
  - eexists; split; [done|]. split; [done|].
    apply (set_cursor_in_bounds s _ _ line); [done | done | lia].
  - destruct (Z.ltb_spec (cursor_y s) (Py.len (lines s) - 1)).
    + destruct (getitem_in_range (lines s) (cursor_y s + 1) ltac:(lia))
        as (l & _ & Hnext).
      eexists; split; [done|]. split; [done|].
      apply (set_cursor_in_bounds s _ _ l); [lia | done |].
      pose proof (len_nonneg l). lia.
    + exists s. split; [done|]. split; [done|]. split; [done|]. by exists line.
Qed.

(** The arrow keys move the cursor inside the buffer and leave the lines
    alone. *)
Lemma arrows_keep_cursor_in_bounds (f : frame) (k : key) (s : editor) :
  arrow k = true → cursor_in_bounds s →
  ∃ s', handle_key f k s = Next s' ∧ lines s' = lines s ∧
        cursor_in_bounds s'.
Proof.
  intros Hk Hin. destruct k; try done; cbn [handle_key].
  - destruct (on_up_in_bounds s Hin) as (s' & -> & ?). by exists s'.
  - destruct (on_down_in_bounds s Hin) as (s' & -> & ?). by exists s'.
  - destruct (on_left_in_bounds s Hin) as (s' & -> & ?). by exists s'.
  - destruct (on_right_in_bounds s Hin) as (s' & -> & ?). by exists s'.
Qed.

(** ** The frame and the cursor *)









(** ** What the edit commands do to the lines *)


(** Enter: the cursor line is cut in two at the cursor. *)
Lemma on_enter_spec (s : editor) (line : str) :
  row_in_buffer s → lines s !! Z.to_nat (cursor_y s) = Some line →
  ∃ s', on_enter s = Some s' ∧
    lines s' = take (Z.to_nat (cursor_y s)) (lines s)
               ++ Py.slice_to line (cursor_x s)
               :: Py.slice_from line (cursor_x s)
               :: drop (S (Z.to_nat (cursor_y s))) (lines s) ∧
    cursor_y s' = cursor_y s + 1 ∧ cursor_x s' = 0 ∧
    clipboard_line s' = clipboard_line s ∧ files s' = files s ∧
    filename s' = filename s.
Proof.
  intros Hy Hl. unfold row_in_buffer in Hy. unfold on_enter. cbn [lines cursor_y cursor_x set_modified save_undo set_history].
  destruct (getitem_in_range (lines s) (cursor_y s) Hy) as (l & -> & Hl').
  assert (l = line) as -> by congruence. simpl.
  rewrite setitem_in_range by exact Hy. simpl.
  eexists; split; [done|]. simpl. split; [|done].
  pose proof (lookup_lt_Some _ _ _ Hl) as Hlt.
  rewrite insert_in_range by (unfold Py.len in *; rewrite length_insert; lia).
  replace (Z.to_nat (cursor_y s + 1)) with (S (Z.to_nat (cursor_y s))) by lia.
  rewrite (take_S_r _ _ (Py.slice_to line (cursor_x s)))
    by (by apply list_lookup_insert_eq).
  rewrite take_insert_ge, drop_insert_lt by lia.
  by rewrite <- app_assoc.
Qed.

(** Text typed at the cursor. *)
Lemma insert_text_spec (text : str) (s : editor) (line : str) :
  row_in_buffer s → lines s !! Z.to_nat (cursor_y s) = Some line →
  ∃ s', insert_text text s = Some s' ∧
    lines s' = <[Z.to_nat (cursor_y s) :=
                   Py.slice_to line (cursor_x s) ++ text
                   ++ Py.slice_from line (cursor_x s)]> (lines s) ∧
    cursor_y s' = cursor_y s ∧ cursor_x s' = cursor_x s + Py.len text ∧
    clipboard_line s' = clipboard_line s ∧ files s' = files s ∧
    filename s' = filename s.
Proof.
  intros Hy Hl. unfold row_in_buffer in Hy. unfold insert_text. cbn [lines cursor_y cursor_x set_modified save_undo set_history].
  destruct (getitem_in_range (lines s) (cursor_y s) Hy) as (l & -> & Hl').
  assert (l = line) as -> by congruence. simpl.
  rewrite setitem_in_range by exact Hy. simpl.
  eexists; split; [done|]. done.
Qed.

(** Backspace inside a line. *)
Lemma on_backspace_char (s : editor) (line : str) :
  row_in_buffer s → lines s !! Z.to_nat (cursor_y s) = Some line →
  0 < cursor_x s →
  ∃ s', on_backspace s = Some s' ∧
    lines s' = <[Z.to_nat (cursor_y s) :=
                   Py.slice_to line (cursor_x s - 1)
                   ++ Py.slice_from line (cursor_x s)]> (lines s) ∧
    cursor_y s' = cursor_y s ∧ cursor_x s' = cursor_x s - 1 ∧
    clipboard_line s' = clipboard_line s ∧ files s' = files s ∧
    filename s' = filename s.
Proof.
  intros Hy Hl Hx. unfold row_in_buffer in Hy. unfold on_backspace. cbn [lines cursor_y cursor_x set_modified save_undo set_history].
  destruct (Z.ltb_spec 0 (cursor_x s)); [|lia].
  destruct (getitem_in_range (lines s) (cursor_y s) Hy) as (l & -> & Hl').
  assert (l = line) as -> by congruence. simpl.
  rewrite setitem_in_range by exact Hy. simpl.
  eexists; split; [done|]. done.
Qed.

(** Backspace at the start of a line joins it to the line above. *)
Lemma on_backspace_join (s : editor) (prev line : str) :
  row_in_buffer s → 0 < cursor_y s → cursor_x s = 0 →
  lines s !! Z.to_nat (cursor_y s - 1) = Some prev →
  lines s !! Z.to_nat (cursor_y s) = Some line →
  ∃ s', on_backspace s = Some s' ∧
    lines s' = take (Z.to_nat (cursor_y s - 1)) (lines s)
               ++ (prev ++ line)
               :: drop (S (Z.to_nat (cursor_y s))) (lines s) ∧
    cursor_y s' = cursor_y s - 1 ∧ cursor_x s' = Py.len prev ∧
    clipboard_line s' = clipboard_line s ∧ files s' = files s ∧
    filename s' = filename s.
Proof.
  intros Hy Hpos Hx Hp Hl. unfold row_in_buffer in Hy. unfold on_backspace.
  cbn [lines cursor_y cursor_x set_modified save_undo set_history].
  rewrite Hx. simpl (0 <? 0).
  destruct (Z.ltb_spec 0 (cursor_y s)); [|lia].
  destruct (getitem_in_range (lines s) (cursor_y s - 1) ltac:(lia))
    as (p & -> & Hp').
  assert (p = prev) as -> by congruence. simpl.
  destruct (getitem_in_range (lines s) (cursor_y s) Hy) as (l & -> & Hl').
  assert (l = line) as -> by congruence. simpl.
  rewrite setitem_in_range by lia. simpl.
  destruct (pop_in_range (<[Z.to_nat (cursor_y s - 1) := prev ++ line]> (lines s))
              (cursor_y s)) as (x & -> & _).
  { unfold Py.len. rewrite length_insert. exact Hy. }
  simpl. eexists; split; [done|]. simpl. split; [|done].
  pose proof (lookup_lt_Some _ _ _ Hl) as Hlt.
  rewrite delete_take_drop.
  rewrite drop_insert_lt by lia.
  replace (Z.to_nat (cursor_y s)) with (S (Z.to_nat (cursor_y s - 1))) at 1 by lia.
  rewrite (take_S_r _ _ (prev ++ line))
    by (apply list_lookup_insert_eq; lia).
  rewrite take_insert_ge by lia. by rewrite <- app_assoc.
Qed.



(** ** Search, goto and the mouse *)

Lemma range_from_row {A} (l : list A) (cy : Z) :
  0 <= cy →
  Py.range cy (Py.len l) 1
  = Some (Z.of_nat <$> seq (Z.to_nat cy) (length l - Z.to_nat cy)).
Proof.
  intros Hcy. unfold Py.range, Py.len. simpl. f_equal.
  destruct (Z.le_gt_cases cy (Z.of_nat (length l))).
  - rewrite <- (range_up_seq (length l - Z.to_nat cy) (Z.to_nat cy)).
    f_equal; lia.
  - replace (Z.to_nat (Z.of_nat (length l) - cy)) with O by lia.
    by replace (length l - Z.to_nat cy)%nat with O by lia.
Qed.

(** [s.find(sub)] from position [i]: the lowest position at which [sub]
    starts, or -1 when [sub] does not occur. *)
Lemma find_from_spec (sub s : str) :
  ∀ i,
  if Py.contains sub s
  then ∃ n : nat, Py.find_from i sub s = i + Z.of_nat n ∧
         (n <= length s)%nat ∧
         Py.startswith sub (drop n s) = true ∧
         ∀ j : nat, (j < n)%nat → Py.startswith sub (drop j s) = false
  else Py.find_from i sub s = -1.
Proof.
  induction s as [|c s IH]; intros i; simpl.
  - destruct (Py.startswith sub []) eqn:Hs; simpl; [|done].
    exists O. rewrite Z.add_0_r. repeat split; try done. lia.
  - destruct (Py.startswith sub (c :: s)) eqn:Hs; simpl.
    + exists O. rewrite Z.add_0_r. repeat split; try done; lia.
    + specialize (IH (i + 1)). destruct (Py.contains sub s); [|done].
      destruct IH as (n & Hf & Hn & Hstart & Hleft).
      exists (S n). repeat split.
      * lia.
      * lia.
      * done.
      * intros [|j] Hj; [done|]. simpl. apply Hleft. lia.
Qed.

(** The scan of the rows [k .. k + m - 1]. *)
Lemma search_rows_spec (term : str) (ls : list str) :
  ∀ (m k : nat), (k + m)%nat = length ls →
  (search_rows term ls (Z.of_nat <$> seq k m) = Some None ∧
   ∀ (row : nat) l, (k <= row)%nat → ls !! row = Some l →
     Py.contains term l = false) ∨
  (∃ (row : nat) l, (k <= row)%nat ∧ ls !! row = Some l ∧
     Py.contains term l = true ∧
     search_rows term ls (Z.of_nat <$> seq k m)
     = Some (Some (Z.of_nat row, Py.find l term)) ∧
     ∀ (r : nat) l', (k <= r < row)%nat → ls !! r = Some l' →
       Py.contains term l' = false).
Proof.
  induction m as [|m IH]; intros k Hlen; simpl.
  - left. split; [done|]. intros row l Hrow Hl.
    apply lookup_lt_Some in Hl. lia.
  - destruct (lookup_lt_is_Some_2 ls k ltac:(lia)) as [line Hline].
    rewrite (getitem_nat _ _ _ Hline). simpl.
    destruct (Py.contains term line) eqn:Hc.
    + right. exists k, line. repeat split; try done. intros r l' Hr. lia.
    + destruct (IH (S k) ltac:(lia)) as [[Hnone Hall]|(row & l & Hrow & Hl & Hcl & Hs & Hbefore)].
      * left. split; [done|]. intros row l Hrow Hl.
        destruct (decide (row = k)) as [->|Hne]; [congruence|].
        apply (Hall row l); [lia|done].
      * right. exists row, l. repeat split; try done; [lia|].
        intros r l' Hr Hl'.
        destruct (decide (r = k)) as [->|Hne]; [congruence|].
        apply (Hbefore r l'); [lia|done].
Qed.

(** X7: the search never changes the lines.  It stops at the first row at
    or below the cursor row whose line contains the term, with the cursor on
    the leftmost occurrence in that line; when no such row exists the cursor
    is not moved and the status says so.  The rows above the cursor are
    never searched. *)
Theorem search_finds_first_match (term : str) (s : editor) :
  0 <= cursor_y s →
  ∃ s', on_where_is term s = Some s' ∧ lines s' = lines s ∧
    ((status_msg s' = Found term ∧
      ∃ line (col : nat),
        cursor_y s <= cursor_y s' ∧
        lines s !! Z.to_nat (cursor_y s') = Some line ∧
        cursor_x s' = Z.of_nat col ∧ (col <= length line)%nat ∧
        Py.startswith term (drop col line) = true ∧
        (∀ j : nat, (j < col)%nat → Py.startswith term (drop j line) = false) ∧
        (∀ (r : nat) l, cursor_y s <= Z.of_nat r < cursor_y s' →
           lines s !! r = Some l → Py.contains term l = false)) ∨
     (status_msg s' = NotFound term ∧
      cursor_y s' = cursor_y s ∧ cursor_x s' = cursor_x s ∧
      ∀ (r : nat) l, cursor_y s <= Z.of_nat r →
        lines s !! r = Some l → Py.contains term l = false)).
Proof.
  intros Hcy. unfold on_where_is. rewrite range_from_row by done. simpl.
  destruct (Z.le_gt_cases (cursor_y s) (Py.len (lines s))) as [Hle|Hgt].
  - destruct (search_rows_spec term (lines s)
                (length (lines s) - Z.to_nat (cursor_y s)) (Z.to_nat (cursor_y s)))
      as [[-> Hall]|(row & l & Hrow & Hl & Hcl & -> & Hbefore)].
    { unfold Py.len in Hle. lia. }
    + simpl. eexists; split; [done|]. split; [done|]. right.
      repeat split; try done. intros r l Hr. apply Hall. lia.
    + simpl. eexists; split; [done|]. split; [done|]. left.
      split; [done|]. simpl.
      pose proof (find_from_spec term l 0) as Hfind. rewrite Hcl in Hfind.
      destruct Hfind as (n & Hf & Hn & Hstart & Hleft).
      exists l, n. rewrite Nat2Z.id. unfold Py.find.
      repeat split; try done; try lia.
      intros r l' Hr. apply Hbefore. lia.
  - replace (length (lines s) - Z.to_nat (cursor_y s))%nat with O
      by (unfold Py.len in Hgt; lia).
    simpl. eexists; split; [done|]. split; [done|]. right.
    repeat split; try done. intros r l Hr Hl.
    apply lookup_lt_Some in Hl. unfold Py.len in Hgt. lia.
Qed.

Lemma search_finds_first_match_witness :
  let term := py "pl" in
  0 <= cursor_y fruit ∧
  ∃ s', on_where_is term fruit = Some s' ∧ lines s' = lines fruit ∧
    ((status_msg s' = Found term ∧
      ∃ line (col : nat),
        cursor_y fruit <= cursor_y s' ∧
        lines fruit !! Z.to_nat (cursor_y s') = Some line ∧
        cursor_x s' = Z.of_nat col ∧ (col <= length line)%nat ∧
        Py.startswith term (drop col line) = true ∧
        (∀ j : nat, (j < col)%nat → Py.startswith term (drop j line) = false) ∧
        (∀ (r : nat) l, cursor_y fruit <= Z.of_nat r < cursor_y s' →
           lines fruit !! r = Some l → Py.contains term l = false)) ∨
     (status_msg s' = NotFound term ∧
      cursor_y s' = cursor_y fruit ∧ cursor_x s' = cursor_x fruit ∧
      ∀ (r : nat) l, cursor_y fruit <= Z.of_nat r →
        lines fruit !! r = Some l → Py.contains term l = false)).
Proof.
  intros term.
  assert (0 <= cursor_y fruit) as Hy by (vm_compute; congruence).
  split; [exact Hy|].
  exact (search_finds_first_match term fruit Hy).
Defined.

(** X6: goto never raises and never changes the lines.  A number between
    1 and the number of lines moves the cursor to that line and clamps the
    column to its length; any other number, and an answer that is no
    number, only set the status message. *)
Theorem goto_line_checks_range (number : option Z) (s : editor) :
  ∃ s', on_goto number s = Some s' ∧ lines s' = lines s ∧
    match number with
    | Some n =>
        if (1 <=? n) && (n <=? Py.len (lines s))
        then status_msg s' = Jumped n ∧ cursor_y s' = n - 1 ∧
             ∃ line, lines s !! Z.to_nat (n - 1) = Some line ∧
                     cursor_x s' = Z.min (cursor_x s) (Py.len line)
        else status_msg s' = InvalidLineNumber ∧
             cursor_y s' = cursor_y s ∧ cursor_x s' = cursor_x s
    | None => status_msg s' = InvalidInput ∧
              cursor_y s' = cursor_y s ∧ cursor_x s' = cursor_x s
    end.
Proof.
  unfold on_goto. destruct number as [n|]; [|by eexists].
  destruct (Z.leb_spec 1 n) as [H1|H1]; destruct (Z.leb_spec n (Py.len (lines s))) as [H2|H2];
    destruct (Z.leb_spec 0 (n - 1)); try lia;
    destruct (Z.ltb_spec (n - 1) (Py.len (lines s))); try lia; simpl;
    try (by eexists).
  destruct (getitem_in_range (lines s) (n - 1) ltac:(lia)) as (line & -> & Hl).
  simpl. eexists; split; [done|]. split; [done|].
  replace (n - 1 + 1) with n by lia. repeat split; try done. by exists line.
Qed.



(** X4: a click never changes the lines.  On a row of the text area it
    puts the cursor inside the buffer, on the clicked row clamped to the
    buffer; anywhere else it changes nothing at all. *)
Theorem click_puts_cursor_in_bounds (f : frame) (mx my : Z) (s : editor) :
  buffer_nonempty s →
  lines (on_mouse f (Some (mx, my)) s) = lines s ∧
  if (1 <=? my) && (my <? text_height f + 1)
  then cursor_in_bounds (on_mouse f (Some (mx, my)) s) ∧
       cursor_y (on_mouse f (Some (mx, my)) s)
       = Z.max 0 (Z.min (screen_y_offset s + my - 1) (Py.len (lines s) - 1))
  else on_mouse f (Some (mx, my)) s = s.
Proof.
  intros Hne. unfold on_mouse.
  destruct ((1 <=? my) && (my <? text_height f + 1)); [|done].
  assert (0 < Py.len (lines s)) as Hlen.
  { unfold buffer_nonempty, Py.len in *. destruct (lines s); [done|]. simpl. lia. }
  set (y := Z.max 0 (Z.min (screen_y_offset s + (my - 1)) (Py.len (lines s) - 1))).
  destruct (getitem_in_range (lines s) y ltac:(lia)) as (line & -> & Hl).
  split; [done|]. split.
  - apply (set_cursor_in_bounds s _ _ line); [lia | done |].
    pose proof (len_nonneg line). lia.
  - simpl. unfold y. f_equal. f_equal. lia.
Qed.

Lemma click_puts_cursor_in_bounds_witness :
  let f := Frame 18 75 [(0, py "banana"); (1, py "apple")] 0 in
  buffer_nonempty fruit ∧
  lines (on_mouse f (Some (7, 9)) fruit) = lines fruit ∧
  if (1 <=? 9) && (9 <? text_height f + 1)
  then cursor_in_bounds (on_mouse f (Some (7, 9)) fruit) ∧
       cursor_y (on_mouse f (Some (7, 9)) fruit)
       = Z.max 0 (Z.min (screen_y_offset fruit + 9 - 1)
                        (Py.len (lines fruit) - 1))
  else on_mouse f (Some (7, 9)) fruit = fruit.
Proof.
  intros f.
  assert (buffer_nonempty fruit) as Hne by (vm_compute; congruence).
  split; [exact Hne|].
  exact (click_puts_cursor_in_bounds f 7 9 fruit Hne).
Defined.


(** ** The keys that edit at the cursor *)

Lemma slice_to_len (line : str) (i : Z) :
  0 <= i <= Py.len line → Py.len (Py.slice_to line i) = i.
Proof.
  intros Hi. rewrite slice_to_nonneg by lia. unfold Py.len in *.
  rewrite length_take. lia.
Qed.

Lemma slice_from_len (line : str) (i : Z) :
  0 <= i <= Py.len line → Py.len (Py.slice_from line i) = Py.len line - i.
Proof.
  intros Hi. rewrite slice_from_nonneg by lia. unfold Py.len in *.
  rewrite length_drop. lia.
Qed.

Lemma insert_text_in_bounds (text : str) (s : editor) :
  cursor_in_bounds s →
  ∃ s', insert_text text s = Some s' ∧ cursor_in_bounds s'.
Proof.
  intros [Hy (line & Hl & Hx)].
  destruct (insert_text_spec text s line Hy Hl) as (s' & Hs & Hls & Hcy & Hcx & _).
  exists s'. split; [done|]. pose proof (lookup_lt_Some _ _ _ Hl) as Hlt.
  split.
  - rewrite Hls, Hcy. unfold Py.len in *. by rewrite length_insert.
  - eexists. rewrite Hls, Hcy, Hcx. split; [by apply list_lookup_insert_eq|].
    rewrite !len_app, slice_to_len, slice_from_len by done.
    pose proof (len_nonneg text). lia.
Qed.

Lemma on_enter_in_bounds (s : editor) :
  cursor_in_bounds s → ∃ s', on_enter s = Some s' ∧ cursor_in_bounds s'.
Proof.
  intros [Hy (line & Hl & Hx)].
  destruct (on_enter_spec s line Hy Hl) as (s' & Hs & Hls & Hcy & Hcx & _).
  exists s'. split; [done|]. pose proof (lookup_lt_Some _ _ _ Hl) as Hlt.
  split.
  - rewrite Hls, Hcy. unfold Py.len in *.
    rewrite length_app, length_take. simpl. rewrite length_drop. lia.
  - exists (Py.slice_from line (cursor_x s)). rewrite Hls, Hcy, Hcx. split.
    + replace (Z.to_nat (cursor_y s + 1)) with
        (length (take (Z.to_nat (cursor_y s)) (lines s)) + 1)%nat
        by (rewrite length_take; lia).
      rewrite lookup_app_r by lia.
      by replace (_ + 1 - _)%nat with 1%nat by lia.
    + pose proof (len_nonneg (Py.slice_from line (cursor_x s))). lia.
Qed.

Lemma on_backspace_in_bounds (s : editor) :
  cursor_in_bounds s → ∃ s', on_backspace s = Some s' ∧ cursor_in_bounds s'.
Proof.
  intros [Hy (line & Hl & Hx)]. pose proof (lookup_lt_Some _ _ _ Hl) as Hlt.
  destruct (Z.lt_ge_cases 0 (cursor_x s)) as [Hpos|Hzero].
  - destruct (on_backspace_char s line Hy Hl Hpos) as (s' & Hs & Hls & Hcy & Hcx & _).
    exists s'. split; [done|]. split.
    + rewrite Hls, Hcy. unfold Py.len in *. by rewrite length_insert.
    + eexists. rewrite Hls, Hcy, Hcx. split; [by apply list_lookup_insert_eq|].
      rewrite len_app, slice_to_len, slice_from_len by lia. lia.
  - assert (cursor_x s = 0) as Hx0 by lia.
    destruct (Z.lt_ge_cases 0 (cursor_y s)) as [Hrow|Htop].
    + destruct (getitem_in_range (lines s) (cursor_y s - 1) ltac:(lia))
        as (prev & _ & Hp).
      destruct (on_backspace_join s prev line Hy Hrow Hx0 Hp Hl)
        as (s' & Hs & Hls & Hcy & Hcx & _).
      exists s'. split; [done|]. split.
      * rewrite Hls, Hcy. unfold Py.len in *.
        rewrite length_app, length_take, Nat.min_l by lia.
        simpl length. rewrite length_drop. lia.
      * exists (prev ++ line). rewrite Hls, Hcy, Hcx. split.
        -- apply list_lookup_middle. rewrite length_take. lia.
        -- rewrite len_app. pose proof (len_nonneg prev).
           pose proof (len_nonneg line). lia.
    + exists (set_modified (save_undo s) true). split.
      * unfold on_backspace. cbn [cursor_x cursor_y set_modified save_undo set_history].
        rewrite Hx0. replace (cursor_y s) with 0 by lia. done.
      * split; [done|]. by exists line.
Qed.

(** Backspace, Enter, Tab and the printable keys leave the cursor inside
    the buffer they produce. *)
Lemma typing_keeps_cursor_in_bounds (f : frame) (k : key) (s : editor) :
  typing_key k = true → cursor_in_bounds s →
  ∃ s', handle_key f k s = Next s' ∧ cursor_in_bounds s'.
Proof.
  intros Hk Hin. destruct k; try done; cbn [handle_key].
  - destruct (on_backspace_in_bounds s Hin) as (s' & -> & ?). by exists s'.
  - destruct (on_enter_in_bounds s Hin) as (s' & -> & ?). by exists s'.
  - destruct (insert_text_in_bounds (py "    ") s Hin) as (s' & Hs & ?).
    unfold on_tab. rewrite Hs. by exists s'.
  - simpl in Hk. rewrite Hk.
    destruct (insert_text_in_bounds [Z.to_N code] s Hin) as (s' & Hs & ?).
    unfold on_char. rewrite Hs. by exists s'.
Qed.



(** A save touches neither the buffer, nor the cursor, nor the history. *)
Lemma on_save_frame (answer : str) (io : io_faults) (s : editor) :
  lines (on_save answer io s) = lines s ∧
  cursor_y (on_save answer io s) = cursor_y s ∧
  cursor_x (on_save answer io s) = cursor_x s ∧
  undo_stack (on_save answer io s) = undo_stack s ∧
  redo_stack (on_save answer io s) = redo_stack s ∧
  clipboard_line (on_save answer io s) = clipboard_line s.
Proof.
  unfold on_save. destruct (truthy (filename s)) as [path|] eqn:Hname.
  - rewrite Hname. by destruct (save_files io path (lines s) (files s)).2.
  - cbn [filename set_filename].
    destruct (truthy (Some answer)) as [path|]; [|done].
    cbn [lines files set_filename].
    by destruct (save_files io path (lines s) (files s)).2.
Qed.



(** ** Edits that undo each other *)









(** ** The size of the history *)

Lemma on_mouse_frame (f : frame) (event : option (Z * Z)) (s : editor) :
  lines (on_mouse f event s) = lines s ∧
  undo_stack (on_mouse f event s) = undo_stack s ∧
  redo_stack (on_mouse f event s) = redo_stack s.
Proof.
  unfold on_mouse. destruct event as [[mx my]|]; [|done].
  destruct ((1 <=? my) && (my <? text_height f + 1)); [|done].
  by destruct (Py.getitem _ _).
Qed.

Lemma handle_key_history (f : frame) (k : key) (s s' : editor) :
  handle_key f k s = Next s' ∨ handle_key f k s = Quit s' →
  history_step k s s'.
Proof.
  intros Hs.
  destruct (mutating k) eqn:Hk.
  { destruct Hs as [Hs|Hs].
    - destruct (mutating_history _ _ _ _ Hk Hs) as (? & ? & _).
      by apply history_saved.
    - destruct k; try done; cbn [handle_key] in Hs;
        try (by destruct (on_backspace _)); try (by destruct (on_enter _));
        try (by destruct (on_tab _)); try (by destruct (on_replace _ _ _));
        try (by destruct (on_cut _)).
      simpl in Hk. rewrite Hk in Hs. by destruct (on_char _ _). }
  destruct k; try done; cbn [handle_key] in Hs.
  - destruct (on_mouse_frame f event s) as (? & ? & ?).
    destruct Hs as [[= <-]|[=]]. by apply history_kept.
  - destruct Hs as [Hs|Hs]; [|by destruct (on_up s)].
    unfold on_up in Hs. returned Hs. subst s'. by apply history_kept.
  - destruct Hs as [Hs|Hs]; [|by destruct (on_down s)].
    unfold on_down in Hs. returned Hs. subst s'. by apply history_kept.
  - destruct Hs as [Hs|Hs]; [|by destruct (on_left s)].
    unfold on_left in Hs. returned Hs; subst s'; by apply history_kept.
  - destruct Hs as [Hs|Hs]; [|by destruct (on_right s)].
    unfold on_right in Hs. returned Hs; subst s'; by apply history_kept.
  - unfold on_exit in Hs. destruct (modified s); [destruct confirm as [[|]|]|];
      destruct Hs as [[= <-]|[= <-]]; by apply history_kept.
  - destruct (on_save_frame answer io s) as (? & _ & _ & ? & ? & _).
    destruct Hs as [[= <-]|[=]]. by apply history_kept.
  - destruct Hs as [[= <-]|[=]]. by apply history_kept.
  - destruct Hs as [Hs|Hs]; [|by destruct (on_where_is _ s)].
    unfold on_where_is in Hs. returned Hs.
    destruct o as [[y x]|]; injection Hs as <-; by apply history_kept.
  - destruct Hs as [Hs|Hs]; [|by destruct (on_goto _ s)].
    unfold on_goto in Hs. destruct number as [n|].
    + returned Hs; subst s'; by apply history_kept.
    + injection Hs as <-. by apply history_kept.
  - destruct Hs as [[= <-]|[=]]. unfold on_undo.
    destruct (last (undo_stack s)) as [top|] eqn:Hlast.
    + apply last_Some in Hlast as [under Hu].
      apply (history_undone _ _ _ under); simpl; [done| |done].
      by rewrite Hu, removelast_last.
    + by apply history_kept.
  - destruct Hs as [[= <-]|[=]]. unfold on_redo.
    destruct (last (redo_stack s)) as [top|] eqn:Hlast.
    + apply last_Some in Hlast as [under Hu].
      apply (history_redone _ _ _ under); simpl; [done| |done].
      by rewrite Hu, removelast_last.
    + by apply history_kept.
  - by destruct Hs.
  - simpl in Hk. rewrite Hk in Hs. destruct Hs as [[= <-]|[=]].
    by apply history_kept.
Qed.

Lemma save_undo_length (s : editor) :
  (length (undo_stack s) <= 100)%nat →
  (length (undo_stack (save_undo s)) <= 100)%nat.
Proof.
  intros Hlen. unfold save_undo. simpl.
  destruct (Z.ltb_spec 100 (Py.len (undo_stack s ++ [lines s]))).
  - rewrite length_drop, length_app. simpl. lia.
  - unfold Py.len in *. lia.
Qed.

Lemma history_step_bounded (k : key) (s s' : editor) :
  history_step k s s' → history_bounded s → history_bounded s'.
Proof.
  unfold history_bounded.
  intros [Hu Hr _|_ Hu Hr|under Hu Hu' Hr|under Hr Hr' Hu] Hb.
  - by rewrite Hu, Hr.
  - pose proof (save_undo_length s ltac:(lia)) as Hlen.
    rewrite Hu, Hr. cbn [length]. lia.
  - rewrite Hu', Hr. rewrite Hu in Hb. rewrite !length_app in *. simpl in *. lia.
  - rewrite Hr', Hu. rewrite Hr in Hb. rewrite !length_app in *. simpl in *. lia.
Qed.

Lemma step_outcome (tty : terminal) (k : key) (s s' : editor) :
  step tty k s = Next s' ∨ step tty k s = Quit s' →
  ∃ f s0, render tty s = Some (f, s0) ∧
    (handle_key f k s0 = Next s' ∨ handle_key f k s0 = Quit s').
Proof.
  unfold step. destruct (render tty s) as [[f s0]|]; [eauto|].
  by intros [|].
Qed.

Lemma step_history (tty : terminal) (k : key) (s s' : editor) :
  step tty k s = Next s' ∨ step tty k s = Quit s' → history_step k s s'.
Proof.
  intros (f & s0 & Hr & Hs)%step_outcome.
  destruct (render_same_document _ _ _ _ Hr) as [_ Hl _ _ _ _ Hu Hredo _].
  destruct (handle_key_history f k s0 s' Hs) as [H1 H2 H3|Hk H1 H2|under H1 H2 H3|under H1 H2 H3].
  - apply history_kept; congruence.
  - apply history_saved; [done| |done]. rewrite H1. unfold save_undo. simpl.
    by rewrite Hu, Hl.
  - apply (history_undone _ _ _ under); congruence.
  - apply (history_redone _ _ _ under); congruence.
Qed.

Lemma run_outcome_inv (P : editor → Prop) :
  (∀ tty k s s', P s →
     step tty k s = Next s' ∨ step tty k s = Quit s' → P s') →
  ∀ inputs s s', P s →
    run inputs s = Next s' ∨ run inputs s = Quit s' → P s'.
Proof.
  intros Hstep. induction inputs as [|[tty k] rest IH]; intros s s' HP Hrun.
  - simpl in Hrun. destruct Hrun as [[= <-]|[=]]. done.
  - simpl in Hrun. destruct (step tty k s) as [s1|s1|] eqn:Hs.
    + apply (IH s1); [|done]. apply (Hstep tty k s); auto.
    + destruct Hrun as [[=]|[= <-]]. apply (Hstep tty k s); auto.
    + by destruct Hrun.
Qed.

(** X12: in every session, whatever file it starts with and whatever keys
    it reads, the undo and redo stacks never hold more than 100 snapshots
    together. *)
Theorem history_never_exceeds_100 (name : option str) (recent_fails : bool)
    (fs : gmap (list N) (list N)) (inputs : list (terminal * key)) (s : editor) :
  run inputs (start name recent_fails fs) = Next s ∨
  run inputs (start name recent_fails fs) = Quit s →
  (length (undo_stack s) + length (redo_stack s) <= 100)%nat.
Proof.
  apply (run_outcome_inv history_bounded).
  - intros tty k s1 s2 Hb Hs. eapply history_step_bounded; [|done].
    by eapply step_history.
  - unfold history_bounded, start.
    destruct (truthy name); [destruct (fs !! _)|]; simpl; lia.
Qed.

Lemma history_never_exceeds_100_witness :
  (run two_edits (start None false ∅) = Next edited ∨
   run two_edits (start None false ∅) = Quit edited) ∧
  (length (undo_stack edited) + length (redo_stack edited) <= 100)%nat.
Proof.
  assert (run two_edits (start None false ∅) = Next edited ∨
          run two_edits (start None false ∅) = Quit edited) as Hrun
    by (left; vm_compute; reflexivity).
  split; [exact Hrun|].
  exact (history_never_exceeds_100 None false ∅ two_edits edited Hrun).
Defined.

(** ** The buffer keeps a line *)

Section Lengths.
Context {A : Type}.
Implicit Types l : list A.

Lemma setitem_length l i x l' :
  Py.setitem l i x = Some l' → length l' = length l.
Proof.
  unfold Py.setitem. destruct (Py.norm_index l i); [|done].
  intros [= <-]. apply length_insert.
Qed.

Lemma pop_below l i p :
  0 < i → Py.pop l i = Some p → p.2 ≠ [].
Proof.
  intros Hi. unfold Py.pop, Py.norm_index.
  destruct (Z.ltb_spec i 0); [lia|].
  destruct (Z.leb_spec 0 i); [|lia].
  destruct (Z.ltb_spec i (Py.len l)); [|done]. simpl.
  destruct (l !! Z.to_nat i) eqn:Hl; [|done]. intros [= <-]. simpl.
  intros Hnil. apply (f_equal length) in Hnil.
  rewrite length_delete in Hnil by eauto.
  unfold Py.len in *. simpl in Hnil. lia.
Qed.

Lemma insert_nonempty l i x : Py.insert l i x ≠ [].
Proof. unfold Py.insert. by destruct (take _ l). Qed.

Lemma nonempty_length l l' : length l' = length l → l ≠ [] → l' ≠ [].
Proof. destruct l, l'; done. Qed.
End Lengths.

Lemma save_undo_nonempty (s : editor) :
  documents_nonempty s →
  Forall (λ b : list str, b ≠ []) (undo_stack (save_undo s)).
Proof.
  intros (Hl & Hu & _). unfold save_undo. simpl.
  assert (Forall (λ b : list str, b ≠ []) (undo_stack s ++ [lines s])) as Hall.
  { apply Forall_app. split; [done|]. by constructor. }
  destruct (100 <? _); [|done]. by apply Forall_drop.
Qed.

(** The commands that call [save_undo], the cut apart, leave lines in the
    buffer. *)
Lemma mutating_keeps_lines (f : frame) (k : key) (s s' : editor) :
  mutating k = true → k ≠ KeyCut → lines s ≠ [] →
  handle_key f k s = Next s' → lines s' ≠ [].
Proof.
  intros Hk Hcut Hne Hs. destruct k; try done; cbn [handle_key] in Hs.
  - unfold on_backspace in Hs.
    cbn [lines cursor_x cursor_y set_modified save_undo set_history] in Hs.
    returned Hs; subst s'; simpl.
    + eapply nonempty_length; [by eapply setitem_length|done].
    + by eapply pop_below; [apply Z.ltb_lt|].
    + done.
  - unfold on_enter in Hs. returned Hs. subst s'. simpl. apply insert_nonempty.
  - unfold on_tab, insert_text in Hs.
    cbn [lines cursor_x cursor_y set_modified save_undo set_history] in Hs.
    returned Hs. subst s'. simpl.
    eapply nonempty_length; [by eapply setitem_length|done].
  - unfold on_replace in Hs. change (lines (save_undo s)) with (lines s) in Hs.
    rewrite replace_all_map in Hs. simpl in Hs. injection Hs as <-.
    simpl. by destruct (lines s).
  - injection Hs as <-. simpl. apply insert_nonempty.
  - simpl in Hk. rewrite Hk in Hs. unfold on_char, insert_text in Hs.
    cbn [lines cursor_x cursor_y set_modified save_undo set_history] in Hs.
    returned Hs. subst s'. simpl.
    eapply nonempty_length; [by eapply setitem_length|done].
Qed.

Lemma mutating_never_quits (f : frame) (k : key) (s s' : editor) :
  mutating k = true → handle_key f k s ≠ Quit s'.
Proof.
  intros Hk. destruct k; try done; cbn [handle_key];
    try (by destruct (on_backspace _)); try (by destruct (on_enter _));
    try (by destruct (on_tab _)); try (by destruct (on_replace _ _ _));
    try (by destruct (on_cut _)).
  simpl in Hk. rewrite Hk. by destruct (on_char _ _).
Qed.

Lemma step_documents_nonempty (tty : terminal) (k : key) (s s' : editor) :
  k ≠ KeyCut → documents_nonempty s →
  step tty k s = Next s' ∨ step tty k s = Quit s' →
  documents_nonempty s'.
Proof.
  intros Hcut Hdoc (f & s0 & Hr & Hs)%step_outcome.
  destruct (render_same_document _ _ _ _ Hr) as [_ Hl _ _ _ _ Hu Hredo _].
  assert (documents_nonempty s0) as Hdoc0.
  { unfold documents_nonempty. by rewrite Hl, Hu, Hredo. }
  clear Hdoc Hr Hl Hu Hredo s.
  destruct (handle_key_history f k s0 s' Hs)
    as [H1 H2 H3|Hk H1 H2|under H1 H2 H3|under H1 H2 H3].
  - unfold documents_nonempty. by rewrite H1, H2, H3.
  - split; [|split].
    + destruct Hs as [Hs|Hs]; [|by apply mutating_never_quits in Hs].
      apply (mutating_keeps_lines f k s0); [done | done | apply Hdoc0 | done].
    + rewrite H1. by apply save_undo_nonempty.
    + by rewrite H2.
  - destruct Hdoc0 as (Hl & Hu & Hredo). rewrite H1 in Hu.
    apply Forall_app in Hu as [Hunder Htop]. split; [|split].
    + by inversion Htop.
    + by rewrite H2.
    + rewrite H3. apply Forall_app. split; [done|]. by constructor.
  - destruct Hdoc0 as (Hl & Hu & Hredo). rewrite H1 in Hredo.
    apply Forall_app in Hredo as [Hunder Htop]. split; [|split].
    + by inversion Htop.
    + rewrite H3. apply Forall_app. split; [done|]. by constructor.
    + by rewrite H2.
Qed.

(** X13: in a session that never reads the cut key, the buffer is never
    without lines, nor is any snapshot of the undo and redo stacks. *)
Theorem only_cut_empties_buffer (name : option str) (recent_fails : bool)
    (fs : gmap (list N) (list N)) (inputs : list (terminal * key)) (s : editor) :
  Forall (λ i, i.2 ≠ KeyCut) inputs →
  run inputs (start name recent_fails fs) = Next s ∨
  run inputs (start name recent_fails fs) = Quit s →
  buffer_nonempty s ∧
  Forall (λ b : list str, b ≠ []) (undo_stack s) ∧
  Forall (λ b : list str, b ≠ []) (redo_stack s).
Proof.
  intros Hkeys.
  assert (documents_nonempty (start name recent_fails fs)) as Hstart.
  { unfold documents_nonempty, start.
    destruct (truthy name); [destruct (fs !! _)|]; simpl; repeat split;
      try done; try constructor.
    unfold load_lines. by destruct (Py.splitlines _). }
  revert Hstart. generalize (start name recent_fails fs).
  induction Hkeys as [|[tty k] rest Hk _ IH]; intros s0 Hdoc Hrun.
  - simpl in Hrun. by destruct Hrun as [[= <-]|[=]].
  - simpl in Hrun, Hk. destruct (step tty k s0) as [s1|s1|] eqn:Hs.
    + apply (IH s1); [|done].
      apply (step_documents_nonempty tty k s0); auto.
    + destruct Hrun as [[=]|[= <-]].
      apply (step_documents_nonempty tty k s0); auto.
    + by destruct Hrun.
Qed.

Lemma only_cut_empties_buffer_witness :
  Forall (λ i : terminal * key, i.2 ≠ KeyCut) two_edits ∧
  (run two_edits (start None false ∅) = Next edited ∨
   run two_edits (start None false ∅) = Quit edited) ∧
  buffer_nonempty edited ∧
  Forall (λ b : list str, b ≠ []) (undo_stack edited) ∧
  Forall (λ b : list str, b ≠ []) (redo_stack edited).
Proof.
  assert (Forall (λ i : terminal * key, i.2 ≠ KeyCut) two_edits) as Hkeys
    by (repeat constructor; simpl; congruence).
  assert (run two_edits (start None false ∅) = Next edited ∨
          run two_edits (start None false ∅) = Quit edited) as Hrun
    by (left; vm_compute; reflexivity).
  split; [exact Hkeys|]. split; [exact Hrun|].
  exact (only_cut_empties_buffer None false ∅ two_edits edited Hkeys Hrun).
Defined.

(** ** Exit and save *)



(** X15: a save never changes the lines and ends in one of three statuses.
    "Wrote": the write did not fail, the modified flag is reset and the file
    name is the written path.  "Error saving": the rename or the write
    failed, and the modified flag is as before.  "Save cancelled": there was
    no file name and the answer was empty, and neither the flag nor the
    files changed. *)
Theorem save_outcomes (answer : str) (io : io_faults) (s : editor) :
  lines (on_save answer io s) = lines s ∧
  match status_msg (on_save answer io s) with
  | Wrote path =>
      modified (on_save answer io s) = false ∧
      truthy (filename (on_save answer io s)) = Some path ∧
      write_fails io = false
  | ErrorSaving =>
      modified (on_save answer io s) = modified s ∧
      (write_fails io = true ∨ rename_fails io = true)
  | SaveCancelled =>
      modified (on_save answer io s) = modified s ∧
      files (on_save answer io s) = files s ∧
      truthy (filename s) = None ∧ answer = []
  | _ => False
  end.
Proof.
  split; [apply on_save_frame|].
  unfold on_save. destruct (truthy (filename s)) as [path|] eqn:Hname.
  - rewrite Hname. unfold save_files, write_out.
    destruct (files s !! path); destruct (rename_fails io);
      destruct (write_fails io); simpl; rewrite ?Hname; auto.
  - cbn [filename set_filename].
    destruct answer as [|c answer]; [done|]. cbn [truthy lines files set_filename].
    unfold save_files, write_out.
    destruct (files s !! (c :: answer)); destruct (rename_fails io);
      destruct (write_fails io); simpl; auto.
Qed.

(** X16: when the session has a file name and neither the rename nor the
    write fails, the save reports "Wrote", resets the modified flag, and the
    file holds the lines joined with newlines. *)
Theorem save_without_faults_succeeds (answer : str) (io : io_faults)
    (s : editor) (path : str) :
  truthy (filename s) = Some path →
  rename_fails io = false → write_fails io = false →
  status_msg (on_save answer io s) = Wrote path ∧
  modified (on_save answer io s) = false ∧
  (path ≠ RECENT_FILES →
   files (on_save answer io s) !! path = Some (serialize (lines s))).
Proof.
  intros Hname Hrename Hwrite. unfold on_save. rewrite Hname. rewrite Hname.
  unfold save_files, write_out. rewrite Hrename, Hwrite.
  destruct (files s !! path); simpl; (split; [done|]); (split; [done|]);
    intros Hne; unfold save_recent_file; destruct (recent_fails io);
    rewrite ?(lookup_insert_ne _ RECENT_FILES) by done;
    apply lookup_insert_eq.
Qed.

Lemma save_without_faults_succeeds_witness :
  let path := py "notes.txt" in
  truthy (filename notes) = Some path ∧
  rename_fails no_faults = false ∧ write_fails no_faults = false ∧
  status_msg (on_save [] no_faults notes) = Wrote path ∧
  modified (on_save [] no_faults notes) = false ∧
  (path ≠ RECENT_FILES →
   files (on_save [] no_faults notes) !! path = Some (serialize (lines notes))).
Proof.
  intros path.
  assert (truthy (filename notes) = Some path) as Hname
    by (vm_compute; reflexivity).
  split; [exact Hname|]. split; [reflexivity|]. split; [reflexivity|].
  exact (save_without_faults_succeeds [] no_faults notes path
           Hname eq_refl eq_refl).
Defined.

(** ** Loading what was saved *)

Lemma splitlines_plain_newline (line rest : str) :
  plain_line line →
  Py.splitlines (line ++ Py.LF :: rest) = line :: Py.splitlines rest.
Proof.
  induction 1 as [|c line Hc _ IH]; [done|].
  simpl. rewrite Hc. by rewrite IH.
Qed.

Lemma splitlines_plain (line : str) :
  plain_line line → line ≠ [] → Py.splitlines line = [line].
Proof.
  induction 1 as [|c line Hc Hline IH]; [done|]. intros _.
  simpl. rewrite Hc. destruct line as [|d line]; [done|].
  by rewrite IH.
Qed.

Lemma join_cons (sep l : str) (ls : list str) :
  ls ≠ [] → Py.join sep (l :: ls) = l ++ sep ++ Py.join sep ls.
Proof. by destruct ls. Qed.

Lemma splitlines_join (ls : list str) :
  Forall plain_line ls → ls ≠ [] →
  Py.splitlines (Py.join [Py.LF] ls)
  = if decide (last ls = Some []) then removelast ls else ls.
Proof.
  induction 1 as [|l ls Hl Hls IH]; [done|]. intros _.
  destruct ls as [|l' ls].
  - simpl. destruct l as [|c l]; [done|].
    rewrite decide_False by done. by apply splitlines_plain.
  - rewrite join_cons by done.
    change (l ++ [Py.LF] ++ Py.join [Py.LF] (l' :: ls))
      with (l ++ Py.LF :: Py.join [Py.LF] (l' :: ls)).
    rewrite splitlines_plain_newline by done.
    rewrite IH by done. change (last (l :: l' :: ls)) with (last (l' :: ls)).
    destruct (decide (last (l' :: ls) = Some [])); [|done].
    done.
Qed.

Lemma only_newlines_join (ls : list str) :
  Forall plain_line ls → only_newlines (Py.join [Py.LF] ls).
Proof.
  induction 1 as [|l ls Hl Hls IH]; [constructor|].
  assert (only_newlines l) as Hplain.
  { eapply Forall_impl; [exact Hl|]. simpl. congruence. }
  destruct ls as [|l' ls]; [done|]. rewrite join_cons by done.
  apply Forall_app. split; [done|]. apply Forall_app. split; [|done].
  by constructor.
Qed.

(** X18: what the save writes for a buffer of lines without line
    boundaries is loaded as the same buffer, except that an empty last line
    of a buffer of two lines or more is lost. *)
Theorem save_then_load (ls : list str) :
  Forall plain_line ls → ls ≠ [] →
  (last ls ≠ Some [] ∨ ls = [[]] → load_lines (serialize ls) = ls) ∧
  (∀ front, front ≠ [] → ls = front ++ [[]] →
     load_lines (serialize ls) = front).
Proof.
  intros Hplain Hne. unfold load_lines, serialize.
  rewrite read_text_only_newlines by (by apply only_newlines_join).
  rewrite splitlines_join by done. split.
  - intros [Hlast|Hone]; [|by subst ls].
    rewrite decide_False by done. by destruct ls.
  - intros front Hfront ->. rewrite last_snoc, decide_True by done.
    rewrite removelast_last. by destruct front.
Qed.

Lemma save_then_load_witness :
  let ls := [py "a"; py "b"] in
  Forall plain_line ls ∧ ls ≠ [] ∧
  (last ls ≠ Some [] ∨ ls = [[]] → load_lines (serialize ls) = ls) ∧
  (∀ front, front ≠ [] → ls = front ++ [[]] →
     load_lines (serialize ls) = front).
Proof.
  intros ls.
  assert (Forall plain_line ls) as Hplain
    by (repeat constructor; vm_compute; reflexivity).
  assert (ls ≠ []) as Hne by (vm_compute; congruence).
  split; [exact Hplain|]. split; [exact Hne|].
  exact (save_then_load ls Hplain Hne).
Defined.

(** ** Narrow terminals *)






(** ** The modified flag, redo and replace *)

Lemma replace_fuel_same (old : str) :
  ∀ fuel s, Py.replace_fuel fuel s old old = s.
Proof.
  induction fuel as [|fuel IH]; intros s; [done|]. simpl.
  destruct (Py.startswith old s) eqn:Hstart.
  - destruct old as [|o old'].
    + simpl. destruct s as [|c s]; [done|]. by rewrite IH.
    + apply startswith_spec in Hstart as [post ->].
      by rewrite IH, drop_app_length.
  - destruct s as [|c s]; [done|]. by rewrite IH.
Qed.

Lemma on_save_resets_modified (answer : str) (io : io_faults) (s : editor) :
  modified s = true → modified (on_save answer io s) = false →
  ∃ path, status_msg (on_save answer io s) = Wrote path.
Proof.
  intros Hmod. unfold on_save.
  destruct (truthy (filename s)) as [path|] eqn:Hname.
  - rewrite Hname. destruct (save_files io path (lines s) (files s)).2; simpl.
    + by exists path.
    + congruence.
  - cbn [filename set_filename].
    destruct answer as [|c answer]; [simpl; congruence|].
    cbn [truthy lines files set_filename].
    destruct (save_files io (c :: answer) (lines s) (files s)).2; simpl.
    + by eexists.
    + congruence.
Qed.

(** X17: the modified flag is reset by nothing but a save that reports
    "Wrote". *)
Theorem modified_reset_only_by_save (tty : terminal) (k : key) (s s' : editor) :
  step tty k s = Next s' ∨ step tty k s = Quit s' →
  modified s = true → modified s' = false →
  ∃ answer io path, k = KeySave answer io ∧ status_msg s' = Wrote path.
Proof.
  intros (f & s0 & Hr & Hs)%step_outcome Hmod Hclear.
  destruct (render_same_document _ _ _ _ Hr) as [_ _ _ _ Hm _ _ _ _].
  rewrite <- Hm in Hmod. clear Hr Hm.
  destruct (mutating k) eqn:Hk.
  { destruct Hs as [Hs|Hs]; [|by apply mutating_never_quits in Hs].
    destruct (mutating_history _ _ _ _ Hk Hs) as (_ & _ & Hset). congruence. }
  destruct k; try done; cbn [handle_key] in Hs.
  - destruct Hs as [[= <-]|[=]]. unfold on_mouse in Hclear.
    destruct event as [[mx my]|]; [|congruence].
    destruct ((1 <=? my) && (my <? text_height f + 1)); [|congruence].
    destruct (Py.getitem _ _); simpl in Hclear; congruence.
  - destruct Hs as [Hs|Hs]; [|by destruct (on_up s0)].
    unfold on_up in Hs. returned Hs. subst s'. simpl in Hclear. congruence.
  - destruct Hs as [Hs|Hs]; [|by destruct (on_down s0)].
    unfold on_down in Hs. returned Hs. subst s'. simpl in Hclear. congruence.
  - destruct Hs as [Hs|Hs]; [|by destruct (on_left s0)].
    unfold on_left in Hs. returned Hs; subst s'; simpl in Hclear; congruence.
  - destruct Hs as [Hs|Hs]; [|by destruct (on_right s0)].
    unfold on_right in Hs. returned Hs; subst s'; simpl in Hclear; congruence.
  - unfold on_exit in Hs. rewrite Hmod in Hs. destruct confirm as [[|]|];
      destruct Hs as [[= <-]|[= <-]]; simpl in Hclear; congruence.
  - destruct Hs as [[= <-]|[=]]. exists answer, io.
    destruct (on_save_resets_modified answer io s0 Hmod Hclear) as [path Hpath].
    by exists path.
  - destruct Hs as [[= <-]|[=]]. simpl in Hclear. congruence.
  - destruct Hs as [Hs|Hs]; [|by destruct (on_where_is _ s0)].
    unfold on_where_is in Hs. returned Hs.
    destruct o as [[y x]|]; injection Hs as <-; simpl in Hclear; congruence.
  - destruct Hs as [Hs|Hs]; [|by destruct (on_goto _ s0)].
    unfold on_goto in Hs. destruct number as [n|].
    + returned Hs; subst s'; simpl in Hclear; congruence.
    + injection Hs as <-. simpl in Hclear. congruence.
  - destruct Hs as [[= <-]|[=]]. unfold on_undo in Hclear.
    destruct (last (undo_stack s0)); simpl in Hclear; congruence.
  - destruct Hs as [[= <-]|[=]]. unfold on_redo in Hclear.
    destruct (last (redo_stack s0)); simpl in Hclear; congruence.
  - by destruct Hs.
  - simpl in Hk. rewrite Hk in Hs. destruct Hs as [[= <-]|[=]]. congruence.
Qed.

Lemma modified_reset_only_by_save_witness :
  (step wide (KeySave [] no_faults) notes = Next notes_saved ∨
   step wide (KeySave [] no_faults) notes = Quit notes_saved) ∧
  modified notes = true ∧ modified notes_saved = false ∧
  ∃ answer io path,
    KeySave [] no_faults = KeySave answer io ∧
    status_msg notes_saved = Wrote path.
Proof.
  assert (step wide (KeySave [] no_faults) notes = Next notes_saved ∨
          step wide (KeySave [] no_faults) notes = Quit notes_saved) as Hstep
    by (left; vm_compute; reflexivity).
  assert (modified notes_saved = false) as Hsaved by (vm_compute; reflexivity).
  split; [exact Hstep|]. split; [reflexivity|]. split; [exact Hsaved|].
  exact (modified_reset_only_by_save wide (KeySave [] no_faults) notes
           notes_saved Hstep eq_refl Hsaved).
Defined.



(** X21: replacing a term by itself never raises and leaves every line as
    it is, for the empty term too; it still counts the lines that contain
    the term and takes a snapshot. *)
Theorem replace_by_itself (old : str) (s : editor) :
  ∃ s', on_replace old old s = Some s' ∧ lines s' = lines s ∧
    status_msg s' = Replaced (Py.len (hits old (lines s))) ∧
    snapshot_taken s s'.
Proof.
  unfold on_replace. change (lines (save_undo s)) with (lines s).
  rewrite replace_all_map. simpl. eexists; split; [done|]. simpl.
  split; [|split; [done|]].
  - induction (lines s) as [|l ls IH]; [done|].
    rewrite fmap_cons, IH. f_equal. unfold replace_line, Py.replace.
    destruct (Py.contains old l); [apply replace_fuel_same|done].
  - split; [apply save_undo_stack|done].
Qed.

(** ** The recent-files list *)

Lemma lstrip_head (s : str) (c : char) :
  head s = Some c → is_space c = false → lstrip s = s.
Proof. destruct s as [|d s]; [done|]. intros [= ->] Hc. simpl. by rewrite Hc. Qed.

Lemma strip_plain_line (name : str) :
  plain_name name → strip (name ++ [Py.LF]) = name.
Proof.
  intros ((c & Hc & Hcs) & (d & Hd & Hds) & _). unfold strip, rstrip.
  rewrite (lstrip_head (name ++ [Py.LF]) c); [|by destruct name|done].
  rewrite reverse_app. simpl.
  rewrite (lstrip_head (reverse name) d); [by rewrite reverse_involutive| |done].
  apply last_Some in Hd as [front ->]. by rewrite reverse_app.
Qed.

Lemma read_text_plain (name rest : str) :
  Forall (λ c, c ≠ Py.LF ∧ c ≠ Py.CR) name →
  read_text (name ++ Py.LF :: rest) = name ++ Py.LF :: read_text rest.
Proof.
  induction 1 as [|c name [_ Hc] _ IH]; [done|]. simpl.
  destruct (N.eqb_spec c Py.CR); [done|]. by rewrite IH.
Qed.

Lemma readlines_plain (name rest : str) :
  Forall (λ c, c ≠ Py.LF ∧ c ≠ Py.CR) name →
  readlines (name ++ Py.LF :: rest) = (name ++ [Py.LF]) :: readlines rest.
Proof.
  induction 1 as [|c name [Hc _] _ IH]; [done|]. simpl.
  destruct (N.eqb_spec c Py.LF); [done|]. by rewrite IH.
Qed.

Lemma register_content (names : list str) :
  ∀ (fs : gmap (list N) (list N)),
  register names fs !! RECENT_FILES
  = match names with
    | [] => fs !! RECENT_FILES
    | _ => Some (default [] (fs !! RECENT_FILES)
                 ++ concat ((λ name, name ++ [Py.LF]) <$> names))
    end.
Proof.
  induction names as [|name names IH]; intros fs; [done|].
  unfold register in *. cbn [foldl]. rewrite IH.
  assert (save_recent_file false name fs !! RECENT_FILES
          = Some (default [] (fs !! RECENT_FILES) ++ name ++ [Py.LF])) as ->.
  { unfold save_recent_file. apply lookup_insert_eq. }
  destruct names as [|name' names].
  - simpl. by rewrite app_nil_r.
  - simpl default. rewrite fmap_cons. simpl concat. by rewrite <- !app_assoc.
Qed.

Lemma load_registry (names : list str) :
  Forall plain_name names →
  filter (λ name, name ≠ [])
    (strip <$> readlines (read_text (concat ((λ name, name ++ [Py.LF]) <$> names))))
  = names.
Proof.
  induction 1 as [|name names Hname _ IH]; [done|].
  rewrite fmap_cons. simpl concat. rewrite <- app_assoc. simpl app.
  destruct Hname as (Hhead & Hlast & Hplain).
  rewrite read_text_plain, readlines_plain by done.
  rewrite fmap_cons, strip_plain_line by done.
  rewrite filter_cons_True; [by rewrite IH|].
  destruct Hhead as (c & Hc & _). by destruct name.
Qed.

(** X22: names saved in the recent-files list are loaded back in the order
    in which they were saved, when the list did not exist before and no name
    is empty, starts or ends with white space, or holds a newline or
    carriage return. *)
Theorem recent_files_round_trip (names : list str)
    (fs : gmap (list N) (list N)) :
  fs !! RECENT_FILES = None → Forall plain_name names →
  load_recent_files (register names fs) = names.
Proof.
  intros Hnone Hnames. unfold load_recent_files.
  rewrite register_content, Hnone.
  destruct names as [|name names]; [done|].
  simpl default. rewrite app_nil_l. by apply load_registry.
Qed.

Lemma recent_files_round_trip_witness :
  let names := [py "a.txt"; py "b.py"] in
  (∅ : gmap (list N) (list N)) !! RECENT_FILES = None ∧
  Forall plain_name names ∧
  load_recent_files (register names ∅) = names.
Proof.
  intros names.
  assert ((∅ : gmap (list N) (list N)) !! RECENT_FILES = None) as Hnew
    by (vm_compute; reflexivity).
  assert (Forall plain_name names) as Hnames.
  { repeat constructor;
      try (eexists; split; [reflexivity|vm_compute; reflexivity]);
      vm_compute; congruence. }
  split; [exact Hnew|]. split; [exact Hnames|].
  exact (recent_files_round_trip names ∅ Hnew Hnames).
Defined.

Lemma lstrip_head_not_space (s : str) (c : char) :
  head (lstrip s) = Some c → is_space c = false.
Proof.
  induction s as [|d s IH]; [done|]. simpl.
  destruct (is_space d) eqn:Hd; [done|]. by intros [= <-].
Qed.

Lemma lstrip_suffix (s : str) : lstrip s `suffix_of` s.
Proof.
  induction s as [|d s IH]; [done|]. simpl.
  destruct (is_space d); [by apply suffix_cons_r|done].
Qed.

Lemma strip_ends (s : str) (c : char) :
  (head (strip s) = Some c → is_space c = false) ∧
  (last (strip s) = Some c → is_space c = false).
Proof.
  unfold strip, rstrip. rewrite head_reverse, last_reverse. split.
  - intros Hlast.
    destruct (lstrip_suffix (reverse (lstrip s))) as [pre Hpre].
    assert (last (reverse (lstrip s)) = Some c) as Hc.
    { rewrite Hpre. apply last_Some in Hlast as [front ->].
      by rewrite app_assoc, last_snoc. }
    rewrite last_reverse in Hc. by apply lstrip_head_not_space in Hc.
  - apply lstrip_head_not_space.
Qed.

(** X23: whatever the recent-files list holds, no name loaded from it is
    empty or starts or ends with white space. *)
Theorem recent_files_are_stripped (fs : gmap (list N) (list N)) (name : str) :
  name ∈ load_recent_files fs →
  name ≠ [] ∧
  (∀ c, head name = Some c → is_space c = false) ∧
  (∀ c, last name = Some c → is_space c = false).
Proof.
  unfold load_recent_files. destruct (fs !! RECENT_FILES) as [content|].
  - intros [Hne Hin]%list_elem_of_filter.
    apply list_elem_of_fmap in Hin as (line & -> & _).
    split; [done|]. split; intros c; apply strip_ends.
  - intros Hin. by apply elem_of_nil in Hin.
Qed.

Lemma recent_files_are_stripped_witness :
  let name := py "a.txt" in
  name ∈ load_recent_files registry ∧
  name ≠ [] ∧
  (∀ c, head name = Some c → is_space c = false) ∧
  (∀ c, last name = Some c → is_space c = false).
Proof.
  intros name.
  assert (name ∈ load_recent_files registry) as Hin.
  { replace (load_recent_files registry) with [py "a.txt"; py "b.py"]
      by (vm_compute; reflexivity).
    apply list_elem_of_here. }
  split; [exact Hin|].
  exact (recent_files_are_stripped registry name Hin).
Defined.

(** X24: the selection of [--recent].  A number from 1 to the number of
    entries opens that entry; 0 and the negative numbers down to minus the
    number of entries plus one are not refused but count from the end of
    the list (0 opens the last entry); every other number is an invalid
    selection. *)
Theorem recent_selection (fs : gmap (list N) (list N)) (n : Z) :
  load_recent_files fs ≠ [] →
  let recent := load_recent_files fs in
  (1 <= n <= Py.len recent →
   ∃ name, recent !! Z.to_nat (n - 1) = Some name ∧
           main [py "--recent"] (Some n) fs = Edit (Some name)) ∧
  (- Py.len recent < n <= 0 →
   ∃ name, recent !! Z.to_nat (Py.len recent + n - 1) = Some name ∧
           main [py "--recent"] (Some n) fs = Edit (Some name)) ∧
  (n <= - Py.len recent ∨ Py.len recent < n →
   main [py "--recent"] (Some n) fs = InvalidSelection).
Proof.
  intros Hne. cbv zeta. unfold main. rewrite decide_True by done.
  destruct (load_recent_files fs) as [|r rs]; [done|]. cbv iota.
  generalize (r :: rs). clear. intros recent.
  pose proof (len_nonneg recent) as Hlen.
  unfold Py.getitem, Py.norm_index. split; [|split].
  - intros Hn. destruct (Z.ltb_spec (n - 1) 0); [lia|].
    destruct (Z.leb_spec 0 (n - 1)); [|lia].
    destruct (Z.ltb_spec (n - 1) (Py.len recent)); [|lia]. simpl.
    destruct (lookup_lt_is_Some_2 recent (Z.to_nat (n - 1))) as [name Hname].
    { unfold Py.len in *. lia. }
    exists name. by rewrite Hname.
  - intros Hn. destruct (Z.ltb_spec (n - 1) 0); [|lia].
    destruct (Z.leb_spec 0 (n - 1 + Py.len recent)); [|lia].
    destruct (Z.ltb_spec (n - 1 + Py.len recent) (Py.len recent)); [|lia]. simpl.
    replace (n - 1 + Py.len recent) with (Py.len recent + n - 1) by lia.
    destruct (lookup_lt_is_Some_2 recent (Z.to_nat (Py.len recent + n - 1)))
      as [name Hname].
    { unfold Py.len in *. lia. }
    exists name. by rewrite Hname.
  - intros [Hn|Hn].
    + destruct (Z.ltb_spec (n - 1) 0); [|lia].
      destruct (Z.leb_spec 0 (n - 1 + Py.len recent)); [lia|]. done.
    + destruct (Z.ltb_spec (n - 1) 0); [lia|].
      destruct (Z.leb_spec 0 (n - 1)); [|lia].
      destruct (Z.ltb_spec (n - 1) (Py.len recent)); [lia|]. done.
Qed.

Lemma recent_selection_witness :
  load_recent_files registry ≠ [] ∧
  let recent := load_recent_files registry in
  (1 <= 0 <= Py.len recent →
   ∃ name, recent !! Z.to_nat (0 - 1) = Some name ∧
           main [py "--recent"] (Some 0) registry = Edit (Some name)) ∧
  (- Py.len recent < 0 <= 0 →
   ∃ name, recent !! Z.to_nat (Py.len recent + 0 - 1) = Some name ∧
           main [py "--recent"] (Some 0) registry = Edit (Some name)) ∧
  (0 <= - Py.len recent ∨ Py.len recent < 0 →
   main [py "--recent"] (Some 0) registry = InvalidSelection).
Proof.
  assert (load_recent_files registry ≠ []) as Hne by (vm_compute; congruence).
  split; [exact Hne|].
  exact (recent_selection registry 0 Hne).
Defined.

(** ** Frames without wrapping *)








